(** * Fused attention primitives: colossalai/kernel/triton/ops.py

    A shallow embedding of the Python-level orchestration in [ops.py]:
    the two attention flows, the packed-QKV entry point and the
    standalone softmax.  Tensors are strided views (shape, stride, dtype)
    over contents of an abstract type supplied by a [Runtime]; kernel
    launches and host-library calls are effects, recorded in order in a
    trace; Python exceptions are results. *)

From Stdlib Require Import ZArith List String Bool Lia PrimFloat.
Import ListNotations.
Local Open Scope Z_scope.

(** ** Python exceptions and scalars *)

Inductive Exception : Type :=
| AssertionError (msg : option string)
| NameError (name : string)
| RuntimeError (msg : string)
| IndexError (msg : string)
| ValueError (msg : string)
| TypeError (msg : string)
| ZeroDivisionError.

(** [torch.dtype]; [torch.float] is [float32]. *)
Inductive DType : Type := float16 | bfloat16 | float32 | float64 | bool_.

Definition DType_eqb (a b : DType) : bool :=
  match a, b with
  | float16, float16 | bfloat16, bfloat16 | float32, float32
  | float64, float64 | bool_, bool_ => true
  | _, _ => false
  end.

(** [torch.promote_types] on the dtypes above. *)
Definition promote_types (a b : DType) : DType :=
  match a, b with
  | bool_, x | x, bool_ => x
  | float64, _ | _, float64 => float64
  | float32, _ | _, float32 => float32
  | float16, float16 => float16
  | bfloat16, bfloat16 => bfloat16
  | float16, bfloat16 | bfloat16, float16 => float32
  end.

(** ** Strided tensor views *)

Record Tensor (D : Type) : Type := mkTensor {
  shape : list Z;
  stride : list Z;
  dtype : DType;
  data : D
}.
Arguments mkTensor {D} _ _ _ _.
Arguments shape {D} _.
Arguments stride {D} _.
Arguments dtype {D} _.
Arguments data {D} _.

(** ** Calls to the collaborators *)

(** An argument of a kernel launch. *)
Inductive Arg (D : Type) : Type :=
| arg_tensor (t : Tensor D)
| arg_none
| arg_int (z : Z)
| arg_float (f : float).
Arguments arg_tensor {D} _.
Arguments arg_none {D}.
Arguments arg_int {D} _.
Arguments arg_float {D} _.

(** [kernel[grid](args, kwargs)]. *)
Record Launch (D : Type) : Type := mkLaunch {
  l_kernel : string;
  l_grid : list Z;
  l_args : list (Arg D);
  l_kwargs : list (string * Arg D)
}.
Arguments mkLaunch {D} _ _ _ _.
Arguments l_kernel {D} _.
Arguments l_grid {D} _.
Arguments l_args {D} _.
Arguments l_kwargs {D} _.

(** Host tensor library operations that compute new contents. *)
Inductive HostOp : Type :=
| op_eq                                        (* a == b *)
| op_mul_scalar (s : float)                    (* s * a *)
| op_iadd                                      (* a += b *)
| op_mul                                       (* a * b *)
| op_to (dt : DType)                           (* a.to(dt) *)
| op_masked_fill_finfo_min (dt : DType)        (* torch.masked_fill(a, m, torch.finfo(dt).min) *)
| op_softmax (dim : Z) (dt : option DType)     (* F.softmax(a, dim=dim, dtype=dt) *)
| op_dropout (p : float) (training inplace : bool). (* F.dropout(a, p, training, inplace) *)

(** Host tensor library operations that only re-index existing contents. *)
Inductive ViewOp : Type :=
| vw_select_last                               (* a[-1] *)
| vw_slice (start : Z) (stop : option Z)       (* a[:, :, start:stop] *)
| vw_expand (sizes : list Z).                  (* a.expand(sizes) *)

Inductive Event (D : Type) : Type :=
| ev_launch (l : Launch D)
| ev_host (op : HostOp) (args : list (Tensor D)).
Arguments ev_launch {D} _.
Arguments ev_host {D} _ _.

(** The collaborators of §6, as black boxes: what a kernel leaves in its
    output buffer, what a host operation returns, the truth value of a
    one-element tensor, and the stride computation of [view] on a view
    that is not contiguous. *)
Class Runtime (D : Type) : Type := {
  rt_empty : list Z -> DType -> D;
  rt_launch : Launch D -> D;
  rt_host : HostOp -> list (Tensor D) -> D;
  rt_view : ViewOp -> Tensor D -> D;
  rt_item : D -> bool;
  rt_view_stride : list Z -> list Z -> list Z -> option (list Z)
}.

(** ** Results and the trace of effects *)

Inductive Result (A : Type) : Type :=
| Ok (a : A)
| Raise (e : Exception).
Arguments Ok {A} _.
Arguments Raise {A} _.

Definition M (D A : Type) : Type := Result A * list (Event D).

Definition ret {D A} (a : A) : M D A := (Ok a, []).

Definition raise {D A} (e : Exception) : M D A := (Raise e, []).

Definition bind {D A B} (m : M D A) (f : A -> M D B) : M D B :=
  match m with
  | (Ok a, tr) => let (r, tr') := f a in (r, tr ++ tr')
  | (Raise e, tr) => (Raise e, tr)
  end.

Definition emit {D} (e : Event D) : M D unit := (Ok tt, [e]).

Notation "x <- m ;; k" := (bind m (fun x => k))
  (at level 61, m at next level, right associativity).
Notation "m ;;; k" := (bind m (fun _ => k))
  (at level 61, right associativity).

(** [assert cond, msg] and the bare [assert cond]. *)
Definition assert_ {D} (cond : bool) (msg : option string) : M D unit :=
  if cond then ret tt else raise (AssertionError msg).

Definition result {D A} (m : M D A) : Result A := fst m.
Definition trace {D A} (m : M D A) : list (Event D) := snd m.

(** The kernel launches of a trace. *)
Definition launches {D} (tr : list (Event D)) : list (Launch D) :=
  flat_map (fun e => match e with ev_launch l => [l] | ev_host _ _ => [] end) tr.

(** ** Python and triton helpers *)

Definition list_eqb (a b : list Z) : bool :=
  if list_eq_dec Z.eq_dec a b then true else false.

(** [seq[i]] with Python's negative indices. *)
Definition getitem {D} (s : list Z) (i : Z) : M D Z :=
  let n := Z.of_nat (List.length s) in
  let j := if i <? 0 then i + n else i in
  if (0 <=? j) && (j <? n) then ret (nth (Z.to_nat j) s 0)
  else raise (IndexError "index out of range").

(** [a, b, c, d = seq]. *)
Definition unpack4 {D} (s : list Z) : M D (Z * Z * Z * Z) :=
  match s with
  | [a; b; c; d] => ret (a, b, c, d)
  | _ => raise (ValueError "wrong number of values to unpack")
  end.

Definition unpack2 {D} (s : list Z) : M D (Z * Z) :=
  match s with
  | [a; b] => ret (a, b)
  | _ => raise (ValueError "wrong number of values to unpack")
  end.

(** [triton.cdiv]. *)
Definition cdiv (x y : Z) : Z := (x + y - 1) / y.

(** [triton.next_power_of_2]: decrement, smear the top bit down, increment. *)
Definition next_power_of_2 (n : Z) : Z :=
  let n := n - 1 in
  let n := Z.lor n (Z.shiftr n 1) in
  let n := Z.lor n (Z.shiftr n 2) in
  let n := Z.lor n (Z.shiftr n 4) in
  let n := Z.lor n (Z.shiftr n 8) in
  let n := Z.lor n (Z.shiftr n 16) in
  let n := Z.lor n (Z.shiftr n 32) in
  n + 1.

(** The names bound at module level in [ops.py] (imports and [def]s). *)
Definition module_globals : list string :=
  ["Optional"; "Tuple"; "torch"; "nn"; "F"; "triton"; "tl"; "HAS_TRITON";
   "qkv_gemm_4d_kernel"; "qkv_gemm_4d_kernel_alibi"; "softmax_kernel";
   "self_attention_forward_without_fusion"; "compute_attention_for_bloom";
   "self_attention_compute_using_triton"; "softmax"]%string.

(** Looking a global name up when the statement using it runs. *)
Definition load_global {D} (name : string) : M D string :=
  if existsb (String.eqb name) module_globals then ret name
  else raise (NameError name).

Notation "' pat <- m ;; k" :=
  (bind m (fun x => match x with pat => k end))
  (at level 61, pat pattern, m at next level, right associativity).

(** ** The host tensor library, at the level of shapes and dtypes *)

Section HostLibrary.
Context {D : Type} {R : Runtime D}.

Definition len (s : list Z) : Z := Z.of_nat (List.length s).

Definition numel (s : list Z) : Z := fold_right Z.mul 1 s.

(** Row-major strides of a fresh allocation. *)
Fixpoint contiguous_strides (s : list Z) : list Z :=
  match s with
  | [] => []
  | _ :: rest => numel (map (Z.max 1) rest) :: contiguous_strides rest
  end.

(** [dims] lists (size, stride) from the last axis to the first. *)
Fixpoint contiguous_from (dims : list (Z * Z)) (expected : Z) : bool :=
  match dims with
  | [] => true
  | (d, s) :: rest =>
      if d =? 1 then contiguous_from rest expected
      else if s =? expected then contiguous_from rest (expected * d)
      else false
  end.

Definition is_contiguous (t : Tensor D) : bool :=
  (numel (shape t) =? 0) || contiguous_from (rev (combine (shape t) (stride t))) 1.

(** [torch.empty(shape, dtype=dt)]. *)
Definition torch_empty (s : list Z) (dt : DType) : Tensor D :=
  mkTensor s (contiguous_strides s) dt (rt_empty s dt).

(** [torch.empty_like(t)].  The strides are those of [t] when [t] is
    contiguous and the row-major ones otherwise (the library keeps the
    strides of a dense permuted [t]; nothing below reads them). *)
Definition torch_empty_like (t : Tensor D) : Tensor D :=
  mkTensor (shape t)
           (if is_contiguous t then stride t else contiguous_strides (shape t))
           (dtype t) (rt_empty (shape t) (dtype t)).

(** [t.stride(i)]. *)
Definition stride_ (t : Tensor D) (i : Z) : M D Z := getitem (stride t) i.

Fixpoint strides (t : Tensor D) (axes : list Z) : M D (list Z) :=
  match axes with
  | [] => ret []
  | i :: rest => s <- stride_ t i ;; ss <- strides t rest ;; ret (s :: ss)
  end.

(** [len(t)]. *)
Definition tensor_len (t : Tensor D) : M D Z :=
  match shape t with
  | [] => raise (TypeError "len() of a 0-d tensor")
  | d :: _ => ret d
  end.

(** The shape a [view] asks for, with at most one [-1] to infer. *)
Definition infer_size (sizes : list Z) (n : Z) : M D (list Z) :=
  let unknown := filter (Z.eqb (-1)) sizes in
  let known := numel (filter (fun d => negb (d =? -1)) sizes) in
  if existsb (fun d => d <? -1) sizes then
    raise (RuntimeError "invalid shape dimension")
  else match unknown with
  | [] => if known =? n then ret sizes
          else raise (RuntimeError "shape is invalid for input size")
  | [_] => if (0 <? known) && (n mod known =? 0)
           then ret (map (fun d => if d =? -1 then n / known else d) sizes)
           else raise (RuntimeError "shape is invalid for input size")
  | _ => raise (RuntimeError "only one dimension can be inferred")
  end.

(** [t.view(sizes)]: the contents are shared, only the indexing changes. *)
Definition view (t : Tensor D) (sizes : list Z) : M D (Tensor D) :=
  s <- infer_size sizes (numel (shape t)) ;;
  if is_contiguous t then ret (mkTensor s (contiguous_strides s) (dtype t) (data t))
  else match rt_view_stride (shape t) (stride t) s with
       | Some st => ret (mkTensor s st (dtype t) (data t))
       | None => raise (RuntimeError "view size is not compatible with input tensor's size and stride")
       end.

(** Broadcasting, on shapes listed from the last axis to the first. *)
Fixpoint broadcast_rev (a b : list Z) : option (list Z) :=
  match a, b with
  | [], _ => Some b
  | _, [] => Some a
  | x :: a', y :: b' =>
      if x =? y then option_map (cons x) (broadcast_rev a' b')
      else if x =? 1 then option_map (cons y) (broadcast_rev a' b')
      else if y =? 1 then option_map (cons x) (broadcast_rev a' b')
      else None
  end.

Definition broadcast_shapes (a b : list Z) : M D (list Z) :=
  match broadcast_rev (rev a) (rev b) with
  | Some s => ret (rev s)
  | None => raise (RuntimeError "The size of tensor a must match the size of tensor b")
  end.

(** A host call that computes: it is recorded in the trace. *)
Definition host (op : HostOp) (args : list (Tensor D)) (s : list Z) (dt : DType)
  : M D (Tensor D) :=
  emit (ev_host op args) ;;;
  ret (mkTensor s (contiguous_strides s) dt (rt_host op args)).

(** [t[-1]]. *)
Definition select_last (t : Tensor D) : M D (Tensor D) :=
  match shape t with
  | [] => raise (IndexError "invalid index of a 0-dim tensor")
  | d :: rest =>
      if d <=? 0 then raise (IndexError "index -1 is out of bounds for dimension 0 with size 0")
      else ret (mkTensor rest (tl (stride t)) (dtype t) (rt_view vw_select_last t))
  end.

(** [a == b]. *)
Definition tensor_eq (a b : Tensor D) : M D (Tensor D) :=
  s <- broadcast_shapes (shape a) (shape b) ;;
  host op_eq [a; b] s bool_.

(** [bool(t)], as [assert t] takes it. *)
Definition tensor_bool (t : Tensor D) : M D bool :=
  let n := numel (shape t) in
  if n =? 0 then raise (RuntimeError "Boolean value of Tensor with no values is ambiguous")
  else if 1 <? n then
    raise (RuntimeError "Boolean value of Tensor with more than one value is ambiguous")
  else ret (rt_item (data t)).

(** [t.to(dt)]: the tensor itself when it already has that dtype. *)
Definition to (t : Tensor D) (dt : DType) : M D (Tensor D) :=
  if DType_eqb (dtype t) dt then ret t
  else host (op_to dt) [t] (shape t) dt.

(** [s * t] for a Python scalar [s]. *)
Definition mul_scalar (s : float) (t : Tensor D) : M D (Tensor D) :=
  host (op_mul_scalar s) [t] (shape t) (dtype t).

(** [a += b]: [b] must broadcast to the shape of [a]. *)
Definition iadd (a b : Tensor D) : M D (Tensor D) :=
  s <- broadcast_shapes (shape a) (shape b) ;;
  if list_eqb s (shape a) then
    emit (ev_host op_iadd [a; b]) ;;;
    ret (mkTensor (shape a) (stride a) (dtype a) (rt_host op_iadd [a; b]))
  else raise (RuntimeError "output with shape doesn't match the broadcast shape").

(** [a * b]. *)
Definition mul (a b : Tensor D) : M D (Tensor D) :=
  s <- broadcast_shapes (shape a) (shape b) ;;
  host op_mul [a; b] s (promote_types (dtype a) (dtype b)).

(** [torch.masked_fill(t, mask, torch.finfo(t.dtype).min)]. *)
Definition masked_fill_finfo_min (t mask : Tensor D) : M D (Tensor D) :=
  if negb (DType_eqb (dtype mask) bool_) then
    raise (RuntimeError "masked_fill only supports boolean masks")
  else
    s <- broadcast_shapes (shape t) (shape mask) ;;
    host (op_masked_fill_finfo_min (dtype t)) [t; mask] s (dtype t).

(** [F.softmax(t, dim=dim, dtype=dt)]. *)
Definition F_softmax (t : Tensor D) (dim : Z) (dt : option DType) : M D (Tensor D) :=
  host (op_softmax dim dt) [t] (shape t)
       (match dt with Some d => d | None => dtype t end).

(** [F.dropout(t, p, training, inplace)]: the probability is checked
    first; dropout is applied only when [training] is set, and the input
    itself is returned otherwise. *)
Definition F_dropout (t : Tensor D) (p : float) (training inplace : bool)
  : M D (Tensor D) :=
  if (PrimFloat.ltb p 0 || PrimFloat.ltb 1 p)%bool then
    raise (ValueError "dropout probability has to be between 0 and 1")
  else if training then host (op_dropout p training inplace) [t] (shape t) (dtype t)
  else emit (ev_host (op_dropout p training inplace) [t]) ;;; ret t.

(** [t.expand(sizes)], on (size, stride) pairs and sizes listed from the
    last axis to the first. *)
Fixpoint expand_rev (sizes : list Z) (old : list (Z * Z)) : option (list (Z * Z)) :=
  match sizes, old with
  | [], [] => Some []
  | [], _ :: _ => None
  | n :: sizes', [] =>
      if n <? 0 then None else option_map (cons (n, 0)) (expand_rev sizes' [])
  | n :: sizes', (d, s) :: old' =>
      if (n =? -1) || (n =? d) then option_map (cons (d, s)) (expand_rev sizes' old')
      else if (d =? 1) && (0 <=? n) then option_map (cons (n, 0)) (expand_rev sizes' old')
      else None
  end.

Definition expand (t : Tensor D) (sizes : list Z) : M D (Tensor D) :=
  match expand_rev (rev sizes) (rev (combine (shape t) (stride t))) with
  | Some dims =>
      ret (mkTensor (map fst (rev dims)) (map snd (rev dims)) (dtype t)
                    (rt_view (vw_expand sizes) t))
  | None => raise (RuntimeError "The expanded size of the tensor must match the existing size")
  end.

(** [t[:, :, start:stop]] for [0 <= start] and [0 <= stop]; a missing
    [stop] is the end of the axis. *)
Definition slice_axis2 (t : Tensor D) (start : Z) (stop : option Z) : M D (Tensor D) :=
  match shape t with
  | d0 :: d1 :: d2 :: rest =>
      let lo := Z.min start d2 in
      let hi := match stop with Some stop => Z.min stop d2 | None => d2 end in
      ret (mkTensor (d0 :: d1 :: Z.max 0 (hi - lo) :: rest) (stride t) (dtype t)
                    (rt_view (vw_slice start stop) t))
  | _ => raise (IndexError "too many indices for tensor")
  end.

(** Python's [a // b]. *)
Definition floordiv (a b : Z) : M D Z :=
  if b =? 0 then raise ZeroDivisionError else ret (a / b).

(** ** Kernel launches *)

Definition opt_arg (t : option (Tensor D)) : Arg D :=
  match t with Some t => arg_tensor t | None => arg_none end.

(** [meta[key]] inside a grid function. *)
Definition meta_int (meta : list (string * Arg D)) (key : string) : Z :=
  match find (fun kv => String.eqb (fst kv) key) meta with
  | Some (_, arg_int z) => z
  | _ => 0
  end.

(** [kernel[grid](args, kwargs)]: the launch is recorded, and [out]
    afterwards holds what the kernel wrote. *)
Definition launch (kernel : string) (grid : list (string * Arg D) -> list Z)
    (args : list (Arg D)) (kwargs : list (string * Arg D)) (out : Tensor D)
  : M D (Tensor D) :=
  let l := mkLaunch kernel (grid kwargs) args kwargs in
  emit (ev_launch l) ;;;
  ret (mkTensor (shape out) (stride out) (dtype out) (rt_launch l)).

End HostLibrary.

(** ** The operations of [ops.py] *)

Section Ops.
Context {D : Type} {R : Runtime D}.

(** [grid = lambda meta: (batches, H, cdiv(M, meta["BLOCK_SIZE_M"]) *
    cdiv(N, meta["BLOCK_SIZE_N"]))]. *)
Definition gemm_grid (batches H M N : Z) (meta : list (string * Arg D)) : list Z :=
  [batches; H;
   cdiv M (meta_int meta "BLOCK_SIZE_M") * cdiv N (meta_int meta "BLOCK_SIZE_N")].

Definition self_attention_forward_without_fusion
    (q k v : Tensor D) (input_mask : option (Tensor D)) (scale : float)
  : M D (Tensor D) :=
  assert_ (len (shape q) =? 4) (Some "the shape of q val must be 4"%string) ;;;
  ' (batches, M, H, K) <- unpack4 (shape q) ;;
  assert_ (list_eqb (shape q) (shape k))
          (Some "the shape of q and the shape of k must be equal"%string) ;;;
  assert_ (list_eqb (shape q) (shape v))
          (Some "the shape of q and the shape of v must be equal"%string) ;;;
  q_last <- getitem (shape q) (-1) ;;
  k_last <- getitem (shape k) (-1) ;;
  assert_ (q_last =? k_last)
          (Some "the last dimension of q and k must be equal"%string) ;;;
  N <- getitem (shape k) 1 ;;
  (* head_size * num_of_head *)
  q_1 <- getitem (shape q) (-1) ;;
  q_2 <- getitem (shape q) (-2) ;;
  let d_model := q_1 * q_2 in
  let score_output := torch_empty [batches; H; M; N] (dtype q) in
  let grid := gemm_grid batches H M N in
  kernel <- load_global "qkv_gemm_4d_kernel" ;;
  sq <- strides q [0; 2; 1; 3] ;;
  sk <- strides k [0; 2; 3; 1] ;;
  sc <- strides score_output [0; 1; 2; 3] ;;
  score_output <-
    launch kernel grid
      ([arg_tensor q; arg_tensor k; arg_tensor score_output;
        arg_int M; arg_int N; arg_int K] ++ map arg_int (sq ++ sk ++ sc))
      [("scale", arg_float scale);
       ("BLOCK_SIZE_M", arg_int 64); ("BLOCK_SIZE_N", arg_int 32);
       ("BLOCK_SIZE_K", arg_int 32); ("GROUP_SIZE_M", arg_int 8)]%string
      score_output ;;
  let softmax_output := torch_empty (shape score_output) (dtype score_output) in
  let score_output_shape := shape score_output in
  so_last <- getitem (shape score_output) (-1) ;;
  score_output <- view score_output [-1; so_last] ;;
  ' (n_rows, n_cols) <- unpack2 (shape score_output) ;;
  softmax_output <-
    (if n_rows <=? 350000 then
       let block_size := Z.max (next_power_of_2 n_cols) 2 in
       let num_warps := 4 in
       let num_warps :=
         if block_size >=? 4096 then 16
         else if block_size >=? 2048 then 8
         else 4 in
       kernel <- load_global "softmax_kernel" ;;
       s0 <- stride_ score_output 0 ;;
       launch kernel (fun _ => [n_rows])
         [arg_tensor softmax_output; arg_tensor score_output; arg_int s0; arg_int n_cols]
         [("mask_ptr", opt_arg input_mask); ("num_warps", arg_int num_warps);
          ("BLOCK_SIZE", arg_int block_size)]%string
         softmax_output
     else
       (* TODO: change softmax kernel functions to make it suitable for
          large size dimension *)
       softmax_output <- F_softmax score_output (-1) None ;;
       view softmax_output score_output_shape) ;;
  ' (batches, H, M, K) <- unpack4 (shape softmax_output) ;;
  N <- getitem (shape v) (-1) ;;
  let output := torch_empty [batches; M; H; N] (dtype softmax_output) in
  let grid := gemm_grid batches H M N in
  kernel <- load_global "qkv_gemm_4d_kernel" ;;
  ss <- strides softmax_output [0; 1; 2; 3] ;;
  sv <- strides v [0; 2; 1; 3] ;;
  so <- strides output [0; 2; 1; 3] ;;
  output <-
    launch kernel grid
      ([arg_tensor softmax_output; arg_tensor v; arg_tensor output;
        arg_int M; arg_int N; arg_int K] ++ map arg_int (ss ++ sv ++ so))
      [("BLOCK_SIZE_M", arg_int 128); ("BLOCK_SIZE_N", arg_int 64);
       ("BLOCK_SIZE_K", arg_int 64); ("GROUP_SIZE_M", arg_int 8);
       ("scale", arg_int (-1))]%string
      output ;;
  view output [batches; -1; d_model].

Definition compute_attention_for_bloom
    (q k v alibi : Tensor D) (beta scale : float)
    (attention_mask : option (Tensor D)) (drop_out : float)
    (head_mask : option (Tensor D))
    (layer_past : option (Tensor D * Tensor D)) (use_cache : bool)
  : M D (Tensor D) :=
  assert_ (len (shape q) =? len (shape k))
          (Some "the dimensions must be matched"%string) ;;;
  assert_ (len (shape q) =? len (shape v))
          (Some "the dimensions must be matched"%string) ;;;
  assert_ (len (shape q) =? 4)
          (Some "the length of input q must be 4, which is (batch, seq_len, num_heads, head_dim)"%string) ;;;
  ' (batches, H, M, K) <- unpack4 (shape q) ;;
  q_1 <- getitem (shape q) 1 ;;
  q_3 <- getitem (shape q) 3 ;;
  let d_model := q_1 * q_3 in
  (* k shape: (batches, num_heads, head_dim (K), seq_k(N)) *)
  N <- getitem (shape k) (-1) ;;
  let score_output := torch_empty [batches; H; M; N] (dtype q) in
  len_score <- tensor_len score_output ;;
  len_alibi <- tensor_len alibi ;;
  assert_ (len_score =? len_alibi)
          (Some "the length of alibi and score output should be matched"%string) ;;;
  assert_ (list_eqb (removelast (shape score_output)) (removelast (shape alibi)))
          (Some "the shape of alibi and score outout also should be the same"%string) ;;;
  alibi <- expand alibi [batches; H; M; N] ;;
  let grid := gemm_grid batches H M N in
  kernel <- load_global "qkv_gemm_4d_kernel" ;;
  sq <- strides q [0; 1; 2; 3] ;;
  sk <- strides k [0; 1; 2; 3] ;;
  sc <- strides score_output [0; 1; 2; 3] ;;
  score_output <-
    launch kernel grid
      ([arg_tensor q; arg_tensor k; arg_tensor score_output;
        arg_int M; arg_int N; arg_int K] ++ map arg_int (sq ++ sk ++ sc))
      [("scale", arg_float scale);
       ("BLOCK_SIZE_M", arg_int 64); ("BLOCK_SIZE_N", arg_int 32);
       ("BLOCK_SIZE_K", arg_int 32); ("GROUP_SIZE_M", arg_int 8);
       ("num_stages", arg_int 4)]%string
      score_output ;;
  scaled_alibi <- mul_scalar beta alibi ;;
  score_output <- iadd score_output scaled_alibi ;;
  (* cast attention scores to fp32, compute scaled softmax and cast back to
     initial dtype *)
  let input_dtype := dtype score_output in
  score_output <-
    (if DType_eqb input_dtype float16 then to score_output float32
     else ret score_output) ;;
  score_output <-
    match attention_mask with
    | Some attention_mask => masked_fill_finfo_min score_output attention_mask
    | None => ret score_output
    end ;;
  let softmax_leading_size := batches * H * M in
  softmax_output <-
    (if softmax_leading_size <=? 350000 then
       score_output <- to score_output input_dtype ;;
       let softmax_output := torch_empty (shape score_output) (dtype score_output) in
       let score_output_shape := shape score_output in
       so_last <- getitem (shape score_output) (-1) ;;
       score_output <- view score_output [-1; so_last] ;;
       ' (n_rows, n_cols) <- unpack2 (shape score_output) ;;
       let block_size := Z.max (next_power_of_2 n_cols) 2 in
       let num_warps := 4 in
       let num_warps :=
         if block_size >=? 4096 then 16
         else if block_size >=? 2048 then 8
         else 4 in
       kernel <- load_global "softmax_kernel" ;;
       s0 <- stride_ score_output 0 ;;
       launch kernel (fun _ => [n_rows])
         [arg_tensor softmax_output; arg_tensor score_output; arg_int s0; arg_int n_cols]
         [("mask_ptr", arg_none); ("num_warps", arg_int num_warps);
          ("BLOCK_SIZE", arg_int block_size)]%string
         softmax_output
     else
       (* TODO: fix softmax layer to make kernel to be suitable for large
          size cases *)
       softmax_output <- F_softmax score_output (-1) (Some float32) ;;
       to softmax_output input_dtype) ;;
  softmax_output <-
    (if (PrimFloat.ltb 0 drop_out && PrimFloat.ltb drop_out 1)%bool then
       dropped <- F_dropout softmax_output drop_out false false ;;
       to dropped input_dtype
     else ret softmax_output) ;;
  softmax_output <-
    match head_mask with
    | Some head_mask =>
        softmax_output <- mul softmax_output head_mask ;;
        to softmax_output input_dtype
    | None => ret softmax_output
    end ;;
  ' (batches, H, M, K) <- unpack4 (shape softmax_output) ;;
  N <- getitem (shape v) (-1) ;;
  let output := torch_empty [batches; M; H; N] (dtype softmax_output) in
  let grid := gemm_grid batches H M N in
  kernel <- load_global "qkv_gemm_4d_kernel" ;;
  ss <- strides softmax_output [0; 1; 2; 3] ;;
  sv <- strides v [0; 1; 2; 3] ;;
  so <- strides output [0; 2; 1; 3] ;;
  output <-
    launch kernel grid
      ([arg_tensor softmax_output; arg_tensor v; arg_tensor output;
        arg_int M; arg_int N; arg_int K] ++ map arg_int (ss ++ sv ++ so))
      [("BLOCK_SIZE_M", arg_int 64); ("BLOCK_SIZE_N", arg_int 32);
       ("BLOCK_SIZE_K", arg_int 32); ("GROUP_SIZE_M", arg_int 8);
       ("scale", arg_int (-1))]%string
      output ;;
  view output [batches; -1; d_model].

Definition self_attention_compute_using_triton
    (qkv : Tensor D) (input_mask : option (Tensor D))
    (layer_past : option (Tensor D * Tensor D)) (alibi : option (Tensor D))
    (scale : float) (head_size : Z) (triangular use_flash : bool)
  : M D (Tensor D) :=
  assert_ (is_contiguous qkv) None ;;;
  assert_ (match alibi with None => true | Some _ => false end)
          (Some "current triton self-attention does not support alibi"%string) ;;;
  batches <- getitem (shape qkv) 0 ;;
  qkv_last <- getitem (shape qkv) (-1) ;;
  let d_model := qkv_last / 3 in
  num_of_heads <- floordiv d_model head_size ;;
  q <- slice_axis2 qkv 0 (Some d_model) ;;
  k <- slice_axis2 qkv d_model (Some (d_model * 2)) ;;
  v <- slice_axis2 qkv (d_model * 2) None ;;
  q <- view q [batches; -1; num_of_heads; head_size] ;;
  k <- view k [batches; -1; num_of_heads; head_size] ;;
  v <- view v [batches; -1; num_of_heads; head_size] ;;
  data_output_triton <- self_attention_forward_without_fusion q k v input_mask scale ;;
  ret data_output_triton.

Definition softmax (input : Tensor D) (mask : option (Tensor D)) (dim : Z)
  : M D (Tensor D) :=
  match mask with
  | Some mask =>
      input_last <- select_last input ;;
      mask_last <- select_last mask ;;
      same <- tensor_eq input_last mask_last ;;
      cond <- tensor_bool same ;;
      assert_ cond
        (Some "the last dimentions should be the same for input and mask"%string)
  | None => ret tt
  end ;;;
  assert_ ((dim =? -1) || (dim =? len (shape input) - 1))
          (Some "currently softmax layer only support last dimention"%string) ;;;
  hidden_dim <- getitem (shape input) (-1) ;;
  let output := torch_empty_like input in
  input <- view input [-1; hidden_dim] ;;
  mask <-
    match mask with
    | Some mask =>
        mask <- view mask [-1; hidden_dim] ;;
        in_0 <- getitem (shape input) 0 ;;
        mask_0 <- getitem (shape mask) 0 ;;
        assert_ (in_0 =? mask_0)
          (Some "the fist dimention of mask and input should be the same"%string) ;;;
        ret (Some mask)
    | None => ret None
    end ;;
  ' (num_rows, num_cols) <- unpack2 (shape input) ;;
  let block_size := Z.max (next_power_of_2 num_cols) 2 in
  let num_warps := 16 in
  let num_warps :=
    if block_size >=? 4096 then 16
    else if block_size >=? 2048 then 8
    else 4 in
  if num_rows <=? 350000 then
    let grid := fun _ : list (string * Arg D) => [num_rows] in
    kernel <- load_global "softmax_kernel" ;;
    s0 <- stride_ input 0 ;;
    launch kernel grid
      [arg_tensor output; arg_tensor input; arg_int s0; arg_int num_cols; opt_arg mask]
      [("BLOCK_SIZE", arg_int block_size); ("num_warps", arg_int num_warps)]%string
      output
  else
    let grid := fun meta : list (string * Arg D) =>
                  [cdiv num_rows (meta_int meta "BLOCK_M")] in
    let BLOCK_M := 32 in
    let BLOCK_M :=
      if block_size >=? 4096 then 4
      else if block_size >=? 2048 then 8
      else BLOCK_M in
    kernel <- load_global "softmax_kernel_2" ;;
    s0 <- stride_ input 0 ;;
    launch kernel grid []
      [("output_ptr", arg_tensor output); ("input_ptr", arg_tensor input);
       ("row_stride", arg_int s0); ("n_rows", arg_int num_rows);
       ("n_cols", arg_int num_cols); ("mask_ptr", opt_arg mask);
       (* currently manually setting up size *)
       ("BLOCK_M", arg_int 32); ("BLOCK_SIZE", arg_int block_size)]%string
      output.

End Ops.

(** ** A runtime that keeps descriptors only

    Contents are erased: every buffer is [tt].  Shapes, strides, dtypes,
    exceptions and the trace are those of any other runtime whose [view]
    accepts the same strides. *)

#[export] Instance descriptor_runtime : Runtime unit := {
  rt_empty := fun _ _ => tt;
  rt_launch := fun _ => tt;
  rt_host := fun _ _ => tt;
  rt_view := fun _ _ => tt;
  rt_item := fun _ => true;
  rt_view_stride := fun _ _ s => Some (contiguous_strides s)
}.

(** A contiguous tensor of the given shape and dtype. *)
Definition descriptor (s : list Z) (dt : DType) : Tensor unit :=
  mkTensor s (contiguous_strides s) dt tt.

(** ** Reading a trace *)

Section Traces.
Context {D : Type}.

(** [kwargs[key]] of a launch. *)
Definition kwarg (l : Launch D) (key : string) : option (Arg D) :=
  option_map snd (find (fun kv => String.eqb (fst kv) key) (l_kwargs l)).

Definition is_softmax_launch (l : Launch D) : bool :=
  String.eqb (l_kernel l) "softmax_kernel".


(** [(n_cols, num_warps, BLOCK_SIZE)] of every [softmax_kernel] launch. *)
Definition softmax_launch_config (l : Launch D) : option (Z * Z * Z) :=
  match nth_error (l_args l) 3, kwarg l "num_warps", kwarg l "BLOCK_SIZE" with
  | Some (arg_int n_cols), Some (arg_int num_warps), Some (arg_int block_size) =>
      Some (n_cols, num_warps, block_size)
  | _, _, _ => None
  end.

Definition softmax_launch_configs (tr : list (Event D)) : list (option (Z * Z * Z)) :=
  map softmax_launch_config (filter is_softmax_launch (launches tr)).

(** The [scale] handed to every [qkv_gemm_4d_kernel] launch of a trace. *)
Definition gemm_scales (tr : list (Event D)) : list (option (Arg D)) :=
  map (fun l => kwarg l "scale")
      (filter (fun l => String.eqb (l_kernel l) "qkv_gemm_4d_kernel") (launches tr)).

Definition is_dropout (e : Event D) : bool :=
  match e with
  | ev_host (op_dropout _ _ _) _ => true
  | _ => false
  end.

(** The arguments of the [F.softmax] calls of a trace. *)
Definition host_softmax_calls (tr : list (Event D)) : list (Z * option DType) :=
  flat_map (fun e =>
    match e with
    | ev_host (op_softmax dim dt) _ => [(dim, dt)]
    | _ => []
    end) tr.

End Traces.

(** The guard of the dropout step, [drop_out > 0 and drop_out < 1]. *)
Definition dropout_guard (drop_out : float) : bool :=
  (PrimFloat.ltb 0 drop_out && PrimFloat.ltb drop_out 1)%bool.

(** The width of the softmax block and its [num_warps], as the three
    dispatch sites compute them from the number of columns. *)
Definition block_size_of (n_cols : Z) : Z := Z.max (next_power_of_2 n_cols) 2.

Definition num_warps_of (block_size : Z) : Z :=
  if block_size >=? 4096 then 16
  else if block_size >=? 2048 then 8
  else 4.

(** The six or-shift steps in the middle of [next_power_of_2]. *)
Definition smear (n : Z) : Z :=
  let n := Z.lor n (Z.shiftr n 1) in
  let n := Z.lor n (Z.shiftr n 2) in
  let n := Z.lor n (Z.shiftr n 4) in
  let n := Z.lor n (Z.shiftr n 8) in
  let n := Z.lor n (Z.shiftr n 16) in
  Z.lor n (Z.shiftr n 32).

(** [x] has bit [i] whenever [m] has one of the [w] bits from [i] upwards. *)
Definition covers (w m x : Z) : Prop :=
  forall i d, 0 <= i -> 0 <= d < w -> Z.testbit m (i + d) = true ->
              Z.testbit x i = true.

(** The bucketing in the words of §4.2: thresholds of 2048 and 4096 on the
    row width in columns. *)
Definition spec_num_warps (n_cols : Z) : Z :=
  if n_cols <? 2048 then 4
  else if n_cols <? 4096 then 8
  else 16.

(** The bucketing of the code, on the row width in columns. *)
Definition num_warps_of_cols (n_cols : Z) : Z :=
  if n_cols <=? 1024 then 4
  else if n_cols <=? 2048 then 8
  else 16.

(** A [softmax_kernel] launch whose [num_warps] and [BLOCK_SIZE] are those
    of its [n_cols]. *)
Definition warps_bucketed {D} (e : Event D) : Prop :=
  match e with
  | ev_launch l =>
      is_softmax_launch l = true ->
      exists n_cols,
        softmax_launch_config l
        = Some (n_cols, num_warps_of_cols n_cols, block_size_of n_cols)
  | ev_host _ _ => True
  end.

(** [batches * H * M] of a rank-4 [q]. *)
Definition leading_size {D} (q : Tensor D) : Z :=
  match shape q with
  | [batches; H; M; _] => batches * H * M
  | _ => 0
  end.

(** What every event of a trace satisfies, and what a result satisfies
    when the computation returns. *)
Definition spec {D A} (P : Event D -> Prop) (m : M D A) (Q : A -> Prop) : Prop :=
  Forall P (trace m) /\ forall a, result m = Ok a -> Q a.

(** An [F.softmax] call without a [dtype] argument: the reduction runs in
    the dtype of its input. *)
Definition unpromoted_softmax {D} (e : Event D) : Prop :=
  match e with
  | ev_host (op_softmax _ dt) _ => dt = None
  | _ => True
  end.

(** The exceptions of the host library's indexing and truth-value rules. *)
Definition is_host_error (e : Exception) : bool :=
  match e with
  | RuntimeError _ | IndexError _ => true
  | _ => false
  end.

(** ** The GEMM kernel *)

Module Gemm.

Section Kernel.

(** Operands: the element found at an offset from each base pointer, the
    problem sizes, one stride per axis and operand, the scale and the
    tile sizes. *)
Variables a_ptr b_ptr : Z -> Z.
Variables M N K : nat.
Variables stride_ab stride_ah stride_am stride_ak : Z.
Variables stride_bb stride_bh stride_bk stride_bn : Z.
Variable scale : Z.
Variables BLOCK_SIZE_M BLOCK_SIZE_N BLOCK_SIZE_K : nat.

Definition a_offset (batch head i k : nat) : Z :=
  Z.of_nat batch * stride_ab + Z.of_nat head * stride_ah
  + Z.of_nat i * stride_am + Z.of_nat k * stride_ak.

Definition b_offset (batch head k j : nat) : Z :=
  Z.of_nat batch * stride_bb + Z.of_nat head * stride_bh
  + Z.of_nat k * stride_bk + Z.of_nat j * stride_bn.

(** Modelled from the spec: the masked load of the absent
    [qkv_gemm_4d_kernel] (§4.1, "out-of-bounds elements contribute zero"). *)
Definition load (ptr : Z -> Z) (offset : Z) (mask : bool) : Z :=
  if mask then ptr offset else 0.

Definition sum_range (s n : nat) (f : nat -> Z) : Z :=
  fold_right (fun k acc => f k + acc) 0 (seq s n).

Definition sum_upto (n : nat) (f : nat -> Z) : Z := sum_range 0 n f.

(** Modelled from the spec: one product of the reduction of the absent
    [qkv_gemm_4d_kernel], for the output element [(i, j)] of a tile and the
    reduction index [k], both operands loaded under the tile's masks. *)
Definition product_term (batch head i j k : nat) : Z :=
  load a_ptr (a_offset batch head i k) ((i <? M)%nat && (k <? K)%nat)
  * load b_ptr (b_offset batch head k j) ((j <? N)%nat && (k <? K)%nat).

(** Modelled from the spec: one chunk of [BLOCK_SIZE_K] products of the
    absent [qkv_gemm_4d_kernel] (§4.1, "accumulates over the K dimension in
    chunks of BLOCK_SIZE_K, using masked loads"). *)
Definition dot_chunk (batch head i j k0 : nat) : Z :=
  sum_upto BLOCK_SIZE_K (fun kk => product_term batch head i j (k0 + kk)%nat).

(** Modelled from the spec: the reduction loop of the absent
    [qkv_gemm_4d_kernel], [chunks] iterations from offset [k0]. *)
Fixpoint accumulate (batch head i j : nat) (chunks k0 : nat) (acc : Z) : Z :=
  match chunks with
  | O => acc
  | S chunks' =>
      accumulate batch head i j chunks' (k0 + BLOCK_SIZE_K)%nat
                 (acc + dot_chunk batch head i j k0)
  end.

(** Modelled from the spec: the scaling step of the absent
    [qkv_gemm_4d_kernel] (§4.1, "Scale is applied once, after the full
    reduction"; "A scale value of exactly -1 is a sentinel meaning apply no
    scale"). *)
Definition apply_scale (acc : Z) : Z :=
  if scale =? -1 then acc else acc * scale.

(** Modelled from the spec: the program of the absent [qkv_gemm_4d_kernel]
    for the tile [(pid_m, pid_n)] of one (batch, head) pair; [r] and [c]
    are a row and a column inside the tile, and the store is masked at the
    array boundary.  The order in which the third grid axis enumerates the
    tiles is left out: §4.1 calls it a performance policy. *)
Definition program (batch head pid_m pid_n r c : nat) : option Z :=
  let i := (pid_m * BLOCK_SIZE_M + r)%nat in
  let j := (pid_n * BLOCK_SIZE_N + c)%nat in
  if ((r <? BLOCK_SIZE_M) && (c <? BLOCK_SIZE_N) && (i <? M) && (j <? N))%nat
  then Some (apply_scale
               (accumulate batch head i j
                  ((K + BLOCK_SIZE_K - 1) / BLOCK_SIZE_K)%nat 0%nat 0))
  else None.

(** Modelled from the spec: the output of the absent [qkv_gemm_4d_kernel]
    at [(batch, head, i, j)], written by the one tile that covers it. *)
Definition qkv_gemm_4d_kernel (batch head i j : nat) : option Z :=
  program batch head (i / BLOCK_SIZE_M) (j / BLOCK_SIZE_N)
          (i mod BLOCK_SIZE_M) (j mod BLOCK_SIZE_N).

(** The plain matrix product [sum_k A[b,h,i,k] * B[b,h,j,k]], with no
    scalar applied. *)
Definition unscaled_product (batch head i j : nat) : Z :=
  sum_upto K (fun k =>
    a_ptr (a_offset batch head i k) * b_ptr (b_offset batch head k j)).

End Kernel.

End Gemm.

(** ** Stages, grids and blocks *)

(** The stages of a trace, in order: the kernels launched and the host
    softmax calls. *)
Definition stage_names {D} (tr : list (Event D)) : list string :=
  flat_map (fun e =>
    match e with
    | ev_launch l => [l_kernel l]
    | ev_host (op_softmax _ _) _ => ["F.softmax"%string]
    | ev_host _ _ => []
    end) tr.

(** A computation that runs no stage. *)
Definition stageless {D A} (m : M D A) : Prop := stage_names (trace m) = [].

(** [block_size] is the least power of two, and at least 2, that holds a
    row of [n_cols] columns. *)
Definition padded_block (n_cols block_size : Z) : Prop :=
  exists p, 1 <= p /\ block_size = 2 ^ p /\ n_cols <= block_size
            /\ block_size < 2 * Z.max n_cols 2.

(** A [softmax_kernel] launch whose [BLOCK_SIZE] holds a whole row. *)
Definition block_covers_row {D} (e : Event D) : Prop :=
  match e with
  | ev_launch l =>
      is_softmax_launch l = true ->
      exists n_cols num_warps block_size,
        softmax_launch_config l = Some (n_cols, num_warps, block_size)
        /\ (0 <= n_cols <= 2 ^ 64 -> padded_block n_cols block_size)
  | ev_host _ _ => True
  end.

(** A [qkv_gemm_4d_kernel] launch whose grid has one program per batch,
    head and output tile, with just enough tiles of [BLOCK_SIZE_M] by
    [BLOCK_SIZE_N] to cover the [M] by [N] product it writes. *)
Definition tiles_cover_output {D} (e : Event D) : Prop :=
  match e with
  | ev_launch l =>
      l_kernel l = "qkv_gemm_4d_kernel"%string ->
      exists out batches H M N tiles_m tiles_n block_m block_n,
        nth_error (l_args l) 2 = Some (arg_tensor out)
        /\ nth_error (l_args l) 3 = Some (arg_int M)
        /\ nth_error (l_args l) 4 = Some (arg_int N)
        /\ kwarg l "BLOCK_SIZE_M" = Some (arg_int block_m)
        /\ kwarg l "BLOCK_SIZE_N" = Some (arg_int block_n)
        /\ l_grid l = [batches; H; tiles_m * tiles_n]
        /\ numel (shape out) = batches * H * (M * N)
        /\ M <= tiles_m * block_m < M + block_m
        /\ N <= tiles_n * block_n < N + block_n
  | ev_host _ _ => True
  end.

(** A [softmax_kernel] launch over a two-dimensional input, one program per
    row, with [mask] as its [mask_ptr] and, where [row_limit] is given, at
    most that many rows. *)
Definition row_per_program {D} (mask : Arg D) (row_limit : option Z)
    (e : Event D) : Prop :=
  match e with
  | ev_launch l =>
      is_softmax_launch l = true ->
      exists input n_rows n_cols,
        nth_error (l_args l) 1 = Some (arg_tensor input)
        /\ nth_error (l_args l) 3 = Some (arg_int n_cols)
        /\ shape input = [n_rows; n_cols]
        /\ l_grid l = [n_rows]
        /\ kwarg l "mask_ptr" = Some mask
        /\ match row_limit with
           | Some limit => n_rows <= limit
           | None => True
           end
  | ev_host _ _ => True
  end.

(** A call that raises without having run anything. *)
Definition fails_quietly {D A} (m : M D A) : Prop :=
  exists e, m = (Raise e, []).

(** ** Reading the biased flow off a trace *)

(** The [F.dropout] calls of a trace: probability, [training], [inplace]
    and operands. *)
Definition dropout_calls {D} (tr : list (Event D))
  : list (float * bool * bool * list (Tensor D)) :=
  flat_map (fun e =>
    match e with
    | ev_host (op_dropout p training inplace) args => [(p, training, inplace, args)]
    | _ => []
    end) tr.

(** What the softmax stage of a trace returns: the output buffer of a
    [softmax_kernel] launch, holding what the kernel wrote, and the result
    of an [F.softmax] call. *)
Definition softmax_outputs {D} {R : Runtime D} (tr : list (Event D))
  : list (Tensor D) :=
  flat_map (fun e =>
    match e with
    | ev_launch l =>
        if is_softmax_launch l then
          match l_args l with
          | arg_tensor out :: _ =>
              [mkTensor (shape out) (stride out) (dtype out) (rt_launch l)]
          | _ => []
          end
        else []
    | ev_host (op_softmax dim dt) [t] =>
        [mkTensor (shape t) (contiguous_strides (shape t))
                  (match dt with Some d => d | None => dtype t end)
                  (rt_host (op_softmax dim dt) [t])]
    | ev_host _ _ => []
    end) tr.

(** [x.to(dt)], as a value. *)
Definition cast_result {D} {R : Runtime D} (x : Tensor D) (dt : DType) : Tensor D :=
  if DType_eqb (dtype x) dt then x
  else mkTensor (shape x) (contiguous_strides (shape x)) dt (rt_host (op_to dt) [x]).

Definition not_dropout {D} (e : Event D) : bool := negb (is_dropout e).

(** [m'] returns what [m] returns, with the trace of [m] less its
    [F.dropout] calls. *)
Definition same_without_dropout {D A} (b : A) (m m' : M D A) : Prop :=
  result m = Ok b ->
  result m' = Ok b /\ trace m' = filter not_dropout (trace m).

(** The events of [t.to(dt)]: none when [t] has that dtype already. *)
Definition cast_events {D} (t : Tensor D) (dt : DType) : list (Event D) :=
  if DType_eqb (dtype t) dt then [] else [ev_host (op_to dt) [t]].

(** What a returning computation gives, and the trace it leaves. *)
Definition yields {D A} (m : M D A) (Q : A -> list (Event D) -> Prop) : Prop :=
  forall a, result m = Ok a -> Q a (trace m).



(** ** A runtime that keeps histories *)

(** Contents that record where they come from: what the caller supplied,
    what an allocation left, what a kernel or a host operation computed
    from which operands. *)
#[warnings="-register-all"] Inductive History : Type :=
| h_given (name : string)
| h_empty
| h_launch (kernel : string) (operands : list History)
| h_host (op : HostOp) (operands : list History)
| h_view (v : ViewOp) (operand : History).

(** The tensors among the arguments of a launch. *)
Definition tensors_of {D} (args : list (Arg D)) : list (Tensor D) :=
  flat_map (fun a => match a with arg_tensor t => [t] | _ => [] end) args.

(** The runtime that computes nothing and records everything. *)
#[export] Instance history_runtime : Runtime History := {
  rt_empty := fun _ _ => h_empty;
  rt_launch := fun l =>
    h_launch (l_kernel l)
             (map data (tensors_of (l_args l ++ map snd (l_kwargs l))));
  rt_host := fun op args => h_host op (map data args);
  rt_view := fun v t => h_view v (data t);
  rt_item := fun _ => true;
  rt_view_stride := fun _ _ s => Some (contiguous_strides s)
}.

(** A contiguous tensor supplied by the caller under a name. *)
Definition given (name : string) (s : list Z) (dt : DType) : Tensor History :=
  mkTensor s (contiguous_strides s) dt (h_given name).

(** * Properties *)

Lemma DType_eqb_eq a b : DType_eqb a b = true <-> a = b.
Proof. destruct a, b; simpl; split; congruence. Qed.

Lemma DType_eqb_refl a : DType_eqb a a = true.
Proof. now apply DType_eqb_eq. Qed.

Lemma list_eqb_eq a b : list_eqb a b = true <-> a = b.
Proof. unfold list_eqb. destruct (list_eq_dec Z.eq_dec a b); split; congruence. Qed.

(** ** Rules for [spec] *)

Section SpecRules.
Context {D : Type} {R : Runtime D}.
Variable P : Event D -> Prop.

Lemma spec_ret {A} (a : A) (Q : A -> Prop) : Q a -> spec P (ret a) Q.
Proof.
  intros HQ. split; simpl; [constructor|]. intros a' H. now inversion H; subst.
Qed.

Lemma spec_raise {A} e (Q : A -> Prop) : spec P (raise e) Q.
Proof. split; simpl; [constructor | discriminate]. Qed.

Lemma spec_bind {A B} (m : M D A) (f : A -> M D B) Q Q' :
  spec P m Q -> (forall a, Q a -> spec P (f a) Q') -> spec P (bind m f) Q'.
Proof.
  intros [Htr Hres] Hf. destruct m as [[a | e] tr]; simpl in *.
  - specialize (Hf a (Hres a eq_refl)). destruct Hf as [Htr' Hres'].
    unfold bind. destruct (f a) as [r tr']; simpl in *.
    split; simpl; [now apply Forall_app | exact Hres'].
  - split; simpl; [exact Htr | discriminate].
Qed.

Lemma spec_conseq {A} (m : M D A) (Q Q' : A -> Prop) :
  spec P m Q -> (forall a, Q a -> Q' a) -> spec P m Q'.
Proof. intros [Htr Hres] HQ. split; auto. Qed.

Lemma spec_emit e : P e -> spec P (emit e) (fun _ => True).
Proof. intros He. split; simpl; auto. Qed.

Lemma spec_assert cond msg : spec P (assert_ cond msg) (fun _ => cond = true).
Proof. destruct cond; [now apply spec_ret | apply spec_raise]. Qed.

(** A computation without events satisfies whatever its result does. *)
Lemma spec_pure {A} (m : M D A) :
  trace m = [] -> spec P m (fun a => result m = Ok a).
Proof. intros H. split; [rewrite H; constructor | auto]. Qed.

Lemma getitem_pure s i : trace (getitem (D := D) s i) = [].
Proof. unfold getitem. now destruct (_ && _). Qed.

Lemma spec_getitem s i : spec P (getitem s i) (fun _ => True).
Proof. eapply spec_conseq; [apply spec_pure, getitem_pure | auto]. Qed.

Lemma spec_unpack4 s :
  spec P (unpack4 s) (fun x => let '(a, b, c, d) := x in s = [a; b; c; d]).
Proof.
  destruct s as [|a [|b [|c [|d [|]]]]]; try apply spec_raise.
  now apply spec_ret.
Qed.

Lemma spec_unpack2 s :
  spec P (unpack2 s) (fun x => let '(a, b) := x in s = [a; b]).
Proof.
  destruct s as [|a [|b [|]]]; try apply spec_raise. now apply spec_ret.
Qed.

Lemma spec_load_global name : spec P (load_global name) (fun n => n = name).
Proof.
  unfold load_global. destruct (existsb _ _); [now apply spec_ret | apply spec_raise].
Qed.

Lemma spec_strides t axes : spec P (strides t axes) (fun _ => True).
Proof.
  induction axes as [|i axes IH]; simpl; [now apply spec_ret|].
  eapply spec_bind; [apply spec_getitem|]. intros s _.
  eapply spec_bind; [apply IH|]. intros ss _. now apply spec_ret.
Qed.

Lemma spec_tensor_len t : spec P (tensor_len t) (fun _ => True).
Proof. unfold tensor_len. destruct (shape t); [apply spec_raise | now apply spec_ret]. Qed.

Lemma spec_infer_size sizes n : spec P (infer_size sizes n) (fun _ => True).
Proof.
  unfold infer_size. destruct (existsb _ _); [apply spec_raise|].
  destruct (filter _ sizes) as [|u [|u' us]]; try apply spec_raise.
  - destruct (_ =? _); [now apply spec_ret | apply spec_raise].
  - destruct (_ && _); [now apply spec_ret | apply spec_raise].
Qed.

Lemma spec_view t sizes :
  spec P (view t sizes) (fun t' => dtype t' = dtype t /\ data t' = data t).
Proof.
  unfold view. eapply spec_bind; [apply spec_infer_size|]. intros s _.
  destruct (is_contiguous t); [now apply spec_ret|].
  destruct (rt_view_stride _ _ _); [now apply spec_ret | apply spec_raise].
Qed.

Lemma spec_broadcast_shapes a b : spec P (broadcast_shapes a b) (fun _ => True).
Proof.
  unfold broadcast_shapes.
  destruct (broadcast_rev _ _); [now apply spec_ret | apply spec_raise].
Qed.

Lemma spec_host op args s dt :
  P (ev_host op args) ->
  spec P (host op args s dt) (fun t => shape t = s /\ dtype t = dt).
Proof.
  intros He. unfold host. eapply spec_bind; [now apply spec_emit|].
  intros _ _. now apply spec_ret.
Qed.

Lemma spec_to t dt :
  P (ev_host (op_to dt) [t]) ->
  spec P (to t dt) (fun t' => shape t' = shape t /\ dtype t' = dt).
Proof.
  intros He. unfold to. destruct (DType_eqb (dtype t) dt) eqn:E.
  - apply spec_ret. apply DType_eqb_eq in E. auto.
  - now apply spec_host.
Qed.

Lemma spec_mul_scalar s t :
  P (ev_host (op_mul_scalar s) [t]) ->
  spec P (mul_scalar s t) (fun t' => shape t' = shape t /\ dtype t' = dtype t).
Proof. intros He. now apply spec_host. Qed.

Lemma spec_iadd a b :
  P (ev_host op_iadd [a; b]) ->
  spec P (iadd a b) (fun t' => shape t' = shape a /\ dtype t' = dtype a).
Proof.
  intros He. unfold iadd. eapply spec_bind; [apply spec_broadcast_shapes|].
  intros s _. destruct (list_eqb _ _); [|apply spec_raise].
  eapply spec_bind; [now apply spec_emit|]. intros _ _. now apply spec_ret.
Qed.

Lemma spec_mul a b :
  P (ev_host op_mul [a; b]) -> spec P (mul a b) (fun _ => True).
Proof.
  intros He. unfold mul. eapply spec_bind; [apply spec_broadcast_shapes|].
  intros s _. eapply spec_conseq; [now apply spec_host | auto].
Qed.

Lemma spec_masked_fill_finfo_min t mask :
  P (ev_host (op_masked_fill_finfo_min (dtype t)) [t; mask]) ->
  spec P (masked_fill_finfo_min t mask) (fun t' => dtype t' = dtype t).
Proof.
  intros He. unfold masked_fill_finfo_min. destruct (negb _); [apply spec_raise|].
  eapply spec_bind; [apply spec_broadcast_shapes|]. intros s _.
  eapply spec_conseq; [now apply spec_host | now intros t' [_ H]].
Qed.

Lemma spec_F_softmax t dim dt :
  P (ev_host (op_softmax dim dt) [t]) ->
  spec P (F_softmax t dim dt)
       (fun t' => shape t' = shape t
                  /\ dtype t' = match dt with Some d => d | None => dtype t end).
Proof. intros He. now apply spec_host. Qed.

Lemma spec_F_dropout t p training inplace :
  P (ev_host (op_dropout p training inplace) [t]) ->
  spec P (F_dropout t p training inplace) (fun _ => True).
Proof.
  intros He. unfold F_dropout. destruct (_ || _)%bool; [apply spec_raise|].
  destruct training.
  - eapply spec_conseq; [now apply spec_host | auto].
  - eapply spec_bind; [now apply spec_emit|]. intros _ _. now apply spec_ret.
Qed.

Lemma spec_expand t sizes : spec P (expand t sizes) (fun t' => dtype t' = dtype t).
Proof.
  unfold expand. destruct (expand_rev _ _); [now apply spec_ret | apply spec_raise].
Qed.

Lemma spec_launch kernel grid args kwargs out :
  P (ev_launch (mkLaunch kernel (grid kwargs) args kwargs)) ->
  spec P (launch kernel grid args kwargs out)
       (fun t => shape t = shape out /\ dtype t = dtype out).
Proof.
  intros He. unfold launch. eapply spec_bind; [now apply spec_emit|].
  intros _ _. now apply spec_ret.
Qed.

Lemma spec_select_last t :
  spec P (select_last t) (fun t' => dtype t' = dtype t /\ shape t' = tl (shape t)).
Proof.
  unfold select_last. destruct (shape t); [apply spec_raise|].
  destruct (_ <=? _); [apply spec_raise | now apply spec_ret].
Qed.

Lemma spec_tensor_eq a b :
  P (ev_host op_eq [a; b]) -> spec P (tensor_eq a b) (fun _ => True).
Proof.
  intros He. unfold tensor_eq. eapply spec_bind; [apply spec_broadcast_shapes|].
  intros s _. eapply spec_conseq; [now apply spec_host | auto].
Qed.

Lemma spec_tensor_bool t : spec P (tensor_bool t) (fun _ => True).
Proof.
  unfold tensor_bool. destruct (_ =? _); [apply spec_raise|].
  destruct (_ <? _); [apply spec_raise | now apply spec_ret].
Qed.

Lemma spec_slice_axis2 t start stop :
  spec P (slice_axis2 t start stop) (fun t' => dtype t' = dtype t).
Proof.
  unfold slice_axis2. destruct (shape t) as [|d0 [|d1 [|d2 rest]]];
    try apply spec_raise. now apply spec_ret.
Qed.

Lemma spec_floordiv a b : spec P (floordiv a b) (fun _ => True).
Proof. unfold floordiv. destruct (_ =? _); [apply spec_raise | now apply spec_ret]. Qed.

End SpecRules.

(** ** [next_power_of_2] and the width buckets *)

Lemma next_power_of_2_smear n : next_power_of_2 n = smear (n - 1) + 1.
Proof. reflexivity. Qed.

Lemma or_shift_pos a k : 0 < a -> 0 < Z.lor a (Z.shiftr a k).
Proof.
  intros Ha.
  assert (0 <= Z.lor a (Z.shiftr a k))
    by (apply Z.lor_nonneg; split; [lia | apply Z.shiftr_nonneg; lia]).
  assert (Z.lor a (Z.shiftr a k) <> 0)
    by (intros E; apply Z.lor_eq_0_iff in E; lia).
  lia.
Qed.

Lemma or_shift_log2 a k :
  0 < a -> 0 <= k -> Z.log2 (Z.lor a (Z.shiftr a k)) = Z.log2 a.
Proof.
  intros Ha Hk.
  rewrite Z.log2_lor by (try apply Z.shiftr_nonneg; lia).
  rewrite Z.log2_shiftr by lia.
  pose proof (Z.log2_nonneg a). lia.
Qed.

Lemma or_shift_neg a k : a < 0 -> Z.lor a (Z.shiftr a k) < 0.
Proof. intros Ha. apply Z.lor_neg. now left. Qed.

Lemma covers_refl m : covers 1 m m.
Proof. intros i d Hi Hd H. now replace (i + d) with i in H by lia. Qed.

Lemma covers_or_shift w m x :
  0 <= w -> covers w m x -> covers (w + w) m (Z.lor x (Z.shiftr x w)).
Proof.
  intros Hw Hc i d Hi Hd H. rewrite Z.lor_spec, Z.shiftr_spec by lia.
  apply Bool.orb_true_iff. destruct (Z.lt_ge_cases d w).
  - left. apply (Hc i d); auto; lia.
  - right. apply (Hc (i + w) (d - w)); try lia.
    now replace (i + w + (d - w)) with (i + d) by lia.
Qed.

Lemma smear_covers m : covers 64 m (smear m).
Proof.
  unfold smear.
  apply (covers_or_shift 32); [lia|].
  apply (covers_or_shift 16); [lia|].
  apply (covers_or_shift 8); [lia|].
  apply (covers_or_shift 4); [lia|].
  apply (covers_or_shift 2); [lia|].
  apply (covers_or_shift 1); [lia|].
  apply covers_refl.
Qed.

Lemma smear_neg m : m < 0 -> smear m < 0.
Proof. intros H. unfold smear. now repeat apply or_shift_neg. Qed.

Lemma smear_0 : smear 0 = 0.
Proof. reflexivity. Qed.

Lemma smear_pos_log2 m : 0 < m -> 0 < smear m /\ Z.log2 (smear m) = Z.log2 m.
Proof.
  intros H. unfold smear.
  repeat match goal with
  | |- 0 < Z.lor ?a (Z.shiftr ?a ?k) /\ Z.log2 (Z.lor ?a (Z.shiftr ?a ?k)) = _ =>
      let Hp := fresh "Hp" in let Hl := fresh "Hl" in
      assert (0 < a /\ Z.log2 a = Z.log2 m) as [Hp Hl];
      [| split; [now apply or_shift_pos | rewrite or_shift_log2 by lia; exact Hl]]
  end.
  split; [exact H | reflexivity].
Qed.

(** Below a power of two, smearing stays below it. *)
Lemma smear_below m p : 0 <= p -> 0 <= m < 2 ^ p -> 0 <= smear m < 2 ^ p.
Proof.
  intros Hp [H0 Hlt]. destruct (Z.eq_dec m 0) as [->|Hne].
  - rewrite smear_0. lia.
  - destruct (smear_pos_log2 m) as [Hs Hl]; [lia|]. split; [lia|].
    apply Z.log2_lt_pow2; [exact Hs|]. rewrite Hl.
    apply Z.log2_lt_pow2; lia.
Qed.

(** From a power of two upwards, smearing fills every lower bit. *)
Lemma smear_above m p : 0 <= p <= 63 -> 2 ^ p <= m -> 2 ^ (p + 1) - 1 <= smear m.
Proof.
  intros Hp Hge.
  assert (Hm : 0 < m) by (pose proof (Z.pow_pos_nonneg 2 p); lia).
  destruct (smear_pos_log2 m Hm) as [Hs Hl].
  assert (Hlog : p <= Z.log2 m) by (apply Z.log2_le_pow2; lia).
  destruct (Z.le_gt_cases (Z.log2 m) 63) as [Hsmall | Hbig].
  - assert (Hbits : Z.land (smear m) (Z.ones (p + 1)) = Z.ones (p + 1)).
    { apply Z.bits_inj'. intros i Hi. rewrite Z.land_spec.
      rewrite Z.testbit_ones_nonneg by lia.
      destruct (Z.ltb_spec i (p + 1)); [|apply Bool.andb_false_r].
      rewrite Bool.andb_true_r.
      apply (smear_covers m i (Z.log2 m - i)); try lia.
      replace (i + (Z.log2 m - i)) with (Z.log2 m) by lia.
      now apply Z.bit_log2. }
    rewrite Z.land_ones, Z.ones_equiv in Hbits by lia.
    pose proof (Z.mod_le (smear m) (2 ^ (p + 1))).
    pose proof (Z.pow_pos_nonneg 2 (p + 1)). lia.
  - pose proof (Z.log2_spec (smear m) Hs) as [Hlo _]. rewrite Hl in Hlo.
    assert (2 ^ (p + 1) <= 2 ^ Z.log2 m) by (apply Z.pow_le_mono_r; lia).
    lia.
Qed.

Lemma num_warps_of_block_size n_cols :
  num_warps_of (block_size_of n_cols) = num_warps_of_cols n_cols.
Proof.
  unfold num_warps_of, block_size_of, num_warps_of_cols.
  rewrite next_power_of_2_smear.
  destruct (Z.leb_spec n_cols 1024) as [H1|H1].
  - assert (smear (n_cols - 1) < 1024).
    { destruct (Z.lt_ge_cases (n_cols - 1) 0) as [Hn|Hn].
      - pose proof (smear_neg _ Hn). lia.
      - pose proof (smear_below (n_cols - 1) 10). lia. }
    destruct (Z.geb_spec (Z.max (smear (n_cols - 1) + 1) 2) 4096); [lia|].
    destruct (Z.geb_spec (Z.max (smear (n_cols - 1) + 1) 2) 2048); [lia|].
    reflexivity.
  - destruct (Z.leb_spec n_cols 2048) as [H2|H2].
    + pose proof (smear_below (n_cols - 1) 11).
      pose proof (smear_above (n_cols - 1) 10).
      destruct (Z.geb_spec (Z.max (smear (n_cols - 1) + 1) 2) 4096); [lia|].
      destruct (Z.geb_spec (Z.max (smear (n_cols - 1) + 1) 2) 2048); [|lia].
      reflexivity.
    + pose proof (smear_above (n_cols - 1) 11).
      destruct (Z.geb_spec (Z.max (smear (n_cols - 1) + 1) 2) 4096); [|lia].
      reflexivity.
Qed.

(** ** Inverting a returning [bind] *)

Section BindInversion.
Context {D : Type} {R : Runtime D}.

Lemma bind_ok_inv {A B} (m : M D A) (f : A -> M D B) b :
  result (bind m f) = Ok b ->
  exists a, result m = Ok a /\ result (f a) = Ok b
            /\ trace (bind m f) = trace m ++ trace (f a).
Proof.
  destruct m as [[a | e] tr]; simpl; [|discriminate].
  destruct (f a) as [r tr'] eqn:E; simpl. intros ->. exists a.
  rewrite E. auto.
Qed.

Lemma load_global_ok name a : result (load_global (D := D) name) = Ok a -> a = name.
Proof.
  unfold load_global. destruct (existsb _ _); simpl; [congruence | discriminate].
Qed.

End BindInversion.

Lemma spec_trace {D A} (P : Event D -> Prop) (m : M D A) Q :
  spec P m Q -> Forall P (trace m).
Proof. now intros [H _]. Qed.

(** Walking through a computation: the head of each [bind] is covered by
    the rule of the call, the side condition on its event by [side]. *)
Ltac spec_call side :=
  first
    [ apply spec_assert | apply spec_getitem | apply spec_unpack4
    | apply spec_unpack2 | apply spec_load_global | apply spec_strides
    | apply spec_tensor_len | apply spec_view | apply spec_expand
    | apply spec_select_last | apply spec_tensor_bool | apply spec_slice_axis2
    | apply spec_floordiv | apply spec_tensor_eq; side
    | apply spec_to; side | apply spec_mul_scalar; side
    | apply spec_iadd; side | apply spec_mul; side
    | apply spec_masked_fill_finfo_min; side | apply spec_F_softmax; side
    | apply spec_F_dropout; side | apply spec_launch; side ].

(** After a step: split what the rule gave, and compute the dtypes of
    fresh allocations. *)
Ltac spec_norm :=
  cbv beta in *;
  repeat match goal with H : _ /\ _ |- _ => destruct H end;
  repeat match goal with H : dtype _ = _ |- _ => progress simpl in H end;
  subst.

Ltac spec_post :=
  cbv beta in *; first [ exact I | assumption | reflexivity | congruence ].

(** A branch taken only by a dtype the context excludes. *)
Ltac prune :=
  match goal with
  | E : DType_eqb ?a ?b = false |- _ =>
      let H := fresh in
      assert (H : a = b) by congruence;
      apply DType_eqb_eq in H; congruence
  end.

Ltac spec_walk side :=
  lazymatch goal with
  | |- spec _ (bind _ _) _ =>
      first
        [ eapply spec_bind; [ spec_call side | ]
        | eapply spec_bind with (Q := fun t => dtype t = float32);
          [ solve [ spec_walk side ] | ]
        | eapply spec_bind with (Q := fun t => dtype t = float16);
          [ solve [ spec_walk side ] | ]
        | eapply spec_bind with (Q := fun _ => True); [ spec_walk side | ] ];
      intros; spec_norm; spec_walk side
  | |- spec _ (ret _) _ => apply spec_ret; spec_post
  | |- spec _ (raise _) _ => apply spec_raise
  | |- spec _ (if ?b then _ else _) _ =>
      destruct b eqn:?; try solve [ exfalso; prune ]; spec_walk side
  | |- spec _ (match ?x with _ => _ end) _ => destruct x eqn:?; spec_walk side
  | |- spec _ _ _ =>
      eapply spec_conseq; [ spec_call side | intros; spec_norm; spec_post ]
  end.

(** ** The width buckets at the dispatch sites *)

Ltac warps_side bucket :=
  simpl; try exact I;
  let H := fresh in
  intros H; try discriminate H;
  eexists; rewrite <- bucket; reflexivity.

Lemma softmax_warps_bucketed {D} {R : Runtime D} input mask dim :
  Forall warps_bucketed (trace (softmax input mask dim)).
Proof.
  apply spec_trace with (Q := fun _ => True).
  unfold softmax. spec_walk ltac:(warps_side num_warps_of_block_size).
Qed.

Lemma forward_warps_bucketed {D} {R : Runtime D} q k v input_mask scale :
  Forall warps_bucketed
         (trace (self_attention_forward_without_fusion q k v input_mask scale)).
Proof.
  apply spec_trace with (Q := fun _ => True).
  unfold self_attention_forward_without_fusion. spec_walk ltac:(warps_side num_warps_of_block_size).
Qed.

Lemma bloom_warps_bucketed {D} {R : Runtime D}
    q k v alibi beta scale attention_mask drop_out head_mask layer_past use_cache :
  Forall warps_bucketed
         (trace (compute_attention_for_bloom q k v alibi beta scale attention_mask
                   drop_out head_mask layer_past use_cache)).
Proof.
  apply spec_trace with (Q := fun _ => True).
  unfold compute_attention_for_bloom. spec_walk ltac:(warps_side num_warps_of_block_size).
Qed.

(** C7 (as amended): at every dispatch site, a [softmax_kernel] launch
    gets its [num_warps] from the padded block size
    [max(next_power_of_2(n_cols), 2)], with thresholds 2048 and 4096 on that
    block size; in columns: 4 up to 1024 columns, 8 above 1024 and up to
    2048, 16 above 2048. *)
Theorem softmax_num_warps_bucketed_by_block_size :
  forall (D : Type) (R : Runtime D),
    (forall n_cols, num_warps_of (block_size_of n_cols) = num_warps_of_cols n_cols)
    /\ (forall input mask dim,
          Forall warps_bucketed (trace (softmax input mask dim)))
    /\ (forall q k v input_mask scale,
          Forall warps_bucketed
            (trace (self_attention_forward_without_fusion q k v input_mask scale)))
    /\ (forall q k v alibi beta scale attention_mask drop_out head_mask
               layer_past use_cache,
          Forall warps_bucketed
            (trace (compute_attention_for_bloom q k v alibi beta scale
                      attention_mask drop_out head_mask layer_past use_cache))).
Proof.
  intros D R. split; [exact num_warps_of_block_size|].
  split; [exact softmax_warps_bucketed|].
  split; [exact forward_warps_bucketed|].
  exact bloom_warps_bucketed.
Qed.

(** C7 fails as stated: rows of 1500 columns, under the 2048 of the spec,
    are launched with 8 warps (on a block of 2048), where the spec's
    thresholds on the column count give 4. *)
Lemma softmax_1500_columns_gets_8_warps :
  softmax_launch_configs
    (trace (softmax (descriptor [3; 1500] float32) None (-1)))
  = [Some (1500, 8, 2048)]
  /\ spec_num_warps 1500 = 4.
Proof. split; vm_compute; reflexivity. Qed.

(** ** Preconditions of the plain flow *)

(** C6: plain self-attention raises an [AssertionError] carrying a message,
    and launches nothing, whenever an operand is not rank-4 or [q] and [k]
    differ in shape. *)
Theorem plain_attention_rejects_bad_shapes :
  forall (D : Type) (R : Runtime D) (q k v : Tensor D) input_mask scale,
    len (shape q) <> 4 \/ len (shape k) <> 4 \/ len (shape v) <> 4
    \/ shape q <> shape k ->
    exists msg,
      self_attention_forward_without_fusion q k v input_mask scale
      = (Raise (AssertionError (Some msg)), []).
Proof.
  intros D R q k v input_mask scale H.
  unfold self_attention_forward_without_fusion.
  destruct (len (shape q) =? 4) eqn:Hq; [|eexists; reflexivity].
  apply Z.eqb_eq in Hq. simpl.
  destruct (shape q) as [|a [|b [|c [|d [|]]]]] eqn:Sq;
    try (unfold len in Hq; simpl in Hq; lia).
  simpl.
  destruct (list_eqb [a; b; c; d] (shape k)) eqn:Hk; [|eexists; reflexivity].
  apply list_eqb_eq in Hk. simpl.
  destruct (list_eqb [a; b; c; d] (shape v)) eqn:Hv; [|eexists; reflexivity].
  apply list_eqb_eq in Hv. exfalso.
  rewrite <- Hk, <- Hv in H. unfold len in H. simpl in H.
  intuition congruence.
Qed.

Lemma plain_attention_rejects_bad_shapes_witness :
  exists msg,
    self_attention_forward_without_fusion
      (descriptor [1; 4; 2; 8] float16) (descriptor [1; 4; 2; 7] float16)
      (descriptor [1; 4; 2; 8] float16) None 1%float
    = (Raise (AssertionError (Some msg)), []).
Proof.
  apply (plain_attention_rejects_bad_shapes unit descriptor_runtime).
  right. right. right. simpl. congruence.
Defined.

(** The contiguity check comes first and carries no message: a [qkv] that
    is not contiguous is refused with a bare [AssertionError], with or
    without a bias. *)
Lemma packed_attention_requires_contiguous {D} {R : Runtime D}
    (qkv : Tensor D) input_mask layer_past alibi scale head_size triangular
    use_flash :
  is_contiguous qkv = false ->
  self_attention_compute_using_triton qkv input_mask layer_past alibi
    scale head_size triangular use_flash
  = (Raise (AssertionError None), []).
Proof.
  intros Hc. unfold self_attention_compute_using_triton. now rewrite Hc.
Qed.

(** C8: on a contiguous packed [qkv], as the entry point takes it, a
    supplied bias makes the call raise the [AssertionError] that names the
    unsupported bias, before anything is computed: the trace is empty. *)
Theorem packed_attention_rejects_alibi :
  forall (D : Type) (R : Runtime D) (qkv : Tensor D) input_mask layer_past
         (alibi : Tensor D) scale head_size triangular use_flash,
    is_contiguous qkv = true ->
    self_attention_compute_using_triton qkv input_mask layer_past (Some alibi)
      scale head_size triangular use_flash
    = (Raise (AssertionError
                (Some "current triton self-attention does not support alibi"%string)),
       []).
Proof.
  intros D R qkv input_mask layer_past alibi scale head_size triangular
         use_flash Hc.
  unfold self_attention_compute_using_triton. rewrite Hc. reflexivity.
Qed.

Lemma packed_attention_rejects_alibi_witness :
  self_attention_compute_using_triton
    (descriptor [2; 5; 24] float16) None None
    (Some (descriptor [2; 2; 5; 5] float16)) 1%float 4 false false
  = (Raise (AssertionError
              (Some "current triton self-attention does not support alibi"%string)),
     []).
Proof.
  apply (packed_attention_rejects_alibi unit descriptor_runtime).
  reflexivity.
Defined.

(** ** The biased flow *)

(** C9: the biased flow does not read [layer_past] or [use_cache]. *)
Theorem bloom_attention_ignores_layer_past_and_use_cache :
  forall (D : Type) (R : Runtime D) (q k v alibi : Tensor D) beta scale
         attention_mask drop_out head_mask layer_past use_cache
         layer_past' use_cache',
    compute_attention_for_bloom q k v alibi beta scale attention_mask drop_out
      head_mask layer_past use_cache
    = compute_attention_for_bloom q k v alibi beta scale attention_mask drop_out
        head_mask layer_past' use_cache'.
Proof. reflexivity. Qed.

(** Outside the guard of the dropout step, the call is the call with the
    default [drop_out = -1]. *)
Lemma bloom_bypass_is_default {D} {R : Runtime D}
    q k v alibi beta scale attention_mask drop_out head_mask layer_past use_cache :
  dropout_guard drop_out = false ->
  compute_attention_for_bloom q k v alibi beta scale attention_mask
    drop_out head_mask layer_past use_cache
  = compute_attention_for_bloom q k v alibi beta scale attention_mask
      (-1)%float head_mask layer_past use_cache.
Proof.
  intros Hg. unfold compute_attention_for_bloom. unfold dropout_guard in Hg.
  rewrite Hg.
  change (PrimFloat.ltb 0 (-1) && PrimFloat.ltb (-1) 1)%bool with false.
  reflexivity.
Qed.

(** ** The precondition of the masked standalone softmax *)

Lemma numel_app a b : numel (a ++ b) = numel a * numel b.
Proof.
  unfold numel. induction a as [|x a IH]; cbn [app fold_right]; [ring|].
  rewrite IH. ring.
Qed.

Lemma numel_rev l : numel (rev l) = numel l.
Proof.
  induction l as [|x l IH]; cbn [rev]; [reflexivity|].
  rewrite numel_app, IH. unfold numel. cbn [fold_right]. ring.
Qed.

Lemma numel_nonneg l : Forall (Z.le 0) l -> 0 <= numel l.
Proof. unfold numel. induction 1; cbn [fold_right]; nia. Qed.

Lemma broadcast_rev_nonneg a b s :
  Forall (Z.le 0) a -> Forall (Z.le 0) b -> broadcast_rev a b = Some s ->
  Forall (Z.le 0) s.
Proof.
  revert b s. induction a as [|x a IH]; intros b s Ha Hb H.
  - simpl in H. congruence.
  - destruct b as [|y b]; simpl in H; [congruence|].
    inversion Ha; inversion Hb; subst.
    destruct (broadcast_rev a b) as [s'|] eqn:E;
      [|destruct (x =? y), (x =? 1), (y =? 1); discriminate].
    specialize (IH b s' ltac:(assumption) ltac:(assumption) E).
    destruct (x =? y); [|destruct (x =? 1); [|destruct (y =? 1); [|discriminate]]];
      simpl in H; inversion H; subst; constructor; assumption.
Qed.

(** A broadcast result with a single element comes from single elements. *)
Lemma broadcast_rev_single a b s :
  Forall (Z.le 0) a -> Forall (Z.le 0) b -> broadcast_rev a b = Some s ->
  numel s = 1 -> numel a = 1.
Proof.
  revert b s. induction a as [|x a IH]; intros b s Ha Hb H Hs; [reflexivity|].
  destruct b as [|y b]; simpl in H; [congruence|].
  inversion Ha; inversion Hb; subst.
  destruct (broadcast_rev a b) as [s'|] eqn:E;
    [|destruct (x =? y), (x =? 1), (y =? 1); discriminate].
  pose proof (broadcast_rev_nonneg a b s' ltac:(assumption) ltac:(assumption) E) as Hnn.
  apply numel_nonneg in Hnn.
  assert (Hstep : forall h, 0 <= h -> h * numel s' = 1 -> h = 1 /\ numel s' = 1)
    by (intros h Hh He; now apply Z.eq_mul_1_nonneg).
  specialize (IH b s' ltac:(assumption) ltac:(assumption) E).
  destruct (Z.eqb_spec x y) as [->|Hxy].
  - simpl in H. inversion H; subst. simpl in Hs.
    destruct (Hstep y ltac:(assumption) Hs) as [-> Hs']. simpl. rewrite IH; auto.
  - destruct (Z.eqb_spec x 1) as [->|Hx1].
    + simpl in H. inversion H; subst. simpl in Hs.
      destruct (Hstep y ltac:(assumption) Hs) as [-> Hs']. congruence.
    + destruct (Z.eqb_spec y 1) as [->|Hy1]; [|discriminate].
      simpl in H. inversion H; subst. simpl in Hs.
      destruct (Hstep x ltac:(assumption) Hs) as [-> Hs']. congruence.
Qed.

Lemma Forall_nonneg_tl l : Forall (Z.le 0) l -> Forall (Z.le 0) (tl l).
Proof. destruct 1; simpl; auto. Qed.

Lemma Forall_nonneg_rev l : Forall (Z.le 0) l -> Forall (Z.le 0) (rev l).
Proof. apply Forall_rev. Qed.

Lemma bind_ret_l {D A B} (a : A) (f : A -> M D B) : bind (ret a) f = f a.
Proof. unfold bind, ret. now destruct (f a). Qed.

Lemma masked_softmax_check {D} {R : Runtime D} (input mask : Tensor D) dim :
  Forall (Z.le 0) (shape input) -> Forall (Z.le 0) (shape mask) ->
  numel (tl (shape input)) <> 1 ->
  exists e tr,
    softmax input (Some mask) dim = (Raise e, tr)
    /\ is_host_error e = true /\ launches tr = [].
Proof.
  intros Hin Hmask Hn. unfold softmax, select_last.
  destruct (shape input) as [|d rest] eqn:Si; [do 2 eexists; repeat split; reflexivity|].
  destruct (d <=? 0); [do 2 eexists; repeat split; reflexivity|].
  rewrite bind_ret_l.
  destruct (shape mask) as [|dm restm] eqn:Sm; [do 2 eexists; repeat split; reflexivity|].
  destruct (dm <=? 0); [do 2 eexists; repeat split; reflexivity|].
  rewrite bind_ret_l.
  cbn [tl] in Hn.
  unfold tensor_eq, broadcast_shapes. cbn [shape].
  destruct (broadcast_rev (rev rest) (rev restm)) as [s|] eqn:Hb;
    [|do 2 eexists; repeat split; reflexivity].
  assert (Hs : numel (rev s) <> 1).
  { intros Hs. apply Hn. rewrite numel_rev in Hs. rewrite <- numel_rev.
    apply (broadcast_rev_single _ _ _
             (Forall_nonneg_rev _ (Forall_nonneg_tl _ Hin))
             (Forall_nonneg_rev _ (Forall_nonneg_tl _ Hmask)) Hb Hs). }
  assert (Hnn : 0 <= numel (rev s)).
  { apply numel_nonneg, Forall_nonneg_rev.
    apply (broadcast_rev_nonneg _ _ _
             (Forall_nonneg_rev _ (Forall_nonneg_tl _ Hin))
             (Forall_nonneg_rev _ (Forall_nonneg_tl _ Hmask)) Hb). }
  rewrite bind_ret_l. unfold host, tensor_bool, emit.
  cbn [bind ret shape app].
  destruct (Z.eqb_spec (numel (rev s)) 0); [do 2 eexists; repeat split; reflexivity|].
  destruct (Z.ltb_spec 1 (numel (rev s))); [do 2 eexists; repeat split; reflexivity|].
  lia.
Qed.

(** C10: with a mask supplied, the standalone softmax raises an error of
    the host library, before any kernel is launched, whenever [input[-1]]
    has more than one element; a masked call that returns had a
    single-element [input[-1]]. *)
Theorem masked_softmax_needs_single_element_slice :
  forall (D : Type) (R : Runtime D) (input mask : Tensor D) dim,
    Forall (Z.le 0) (shape input) -> Forall (Z.le 0) (shape mask) ->
    (1 < numel (tl (shape input)) ->
       exists e,
         result (softmax input (Some mask) dim) = Raise e
         /\ is_host_error e = true
         /\ launches (trace (softmax input (Some mask) dim)) = [])
    /\ (forall out,
          result (softmax input (Some mask) dim) = Ok out ->
          numel (tl (shape input)) = 1).
Proof.
  intros D R input mask dim Hin Hmask. split.
  - intros Hn.
    destruct (masked_softmax_check input mask dim Hin Hmask) as (e & tr & E & He & Htr);
      [lia|].
    exists e. rewrite E. auto.
  - intros out Hout.
    destruct (Z.eq_dec (numel (tl (shape input))) 1) as [|Hn]; [assumption|].
    destruct (masked_softmax_check input mask dim Hin Hmask Hn) as (e & tr & E & _).
    rewrite E in Hout. discriminate.
Qed.

Lemma masked_softmax_needs_single_element_slice_witness :
  exists e,
    result (softmax (descriptor [3; 5] float32) (Some (descriptor [3; 5] bool_)) (-1))
    = Raise e
    /\ is_host_error e = true
    /\ launches (trace (softmax (descriptor [3; 5] float32)
                          (Some (descriptor [3; 5] bool_)) (-1))) = [].
Proof.
  refine (proj1 (masked_softmax_needs_single_element_slice unit descriptor_runtime
                   (descriptor [3; 5] float32) (descriptor [3; 5] bool_) (-1) _ _) _).
  - simpl. repeat constructor; discriminate.
  - simpl. repeat constructor; discriminate.
  - simpl. lia.
Defined.


(** ** The large-row-count paths *)

(** C1: the row-band path of the standalone softmax produces no output.
    On a contiguous [rows x cols] input with more than 350000 rows the
    call ends at the lookup of [softmax_kernel_2], a name that [ops.py]
    neither imports nor defines, before anything is launched. *)
Theorem softmax_large_path_raises_name_error :
  forall (D : Type) (R : Runtime D) (rows cols : Z) (dt : DType) (contents : D),
    350000 < rows -> 0 < cols ->
    softmax (mkTensor [rows; cols] [cols; 1] dt contents) None (-1)
    = (Raise (NameError "softmax_kernel_2"), []).
Proof.
  intros D R rows cols dt contents Hrows Hcols.
  unfold softmax. cbn [shape]. rewrite bind_ret_l.
  replace ((-1 =? -1) || (-1 =? len [rows; cols] - 1))%bool with true by reflexivity.
  cbn [assert_]. rewrite bind_ret_l.
  change (getitem [rows; cols] (-1)) with (ret (D := D) cols).
  rewrite bind_ret_l.
  assert (Hc : is_contiguous (mkTensor [rows; cols] [cols; 1] dt contents) = true).
  { unfold is_contiguous. cbn [shape stride combine rev app contiguous_from].
    apply Bool.orb_true_iff. right.
    destruct (Z.eqb_spec rows 1); [lia|].
    replace (1 =? 1) with true by reflexivity.
    rewrite Z.mul_1_l, Z.eqb_refl.
    now destruct (cols =? 1). }
  assert (Hv : view (mkTensor [rows; cols] [cols; 1] dt contents) [-1; cols]
               = ret (mkTensor [rows; cols] [cols; 1] dt contents)).
  { unfold view, infer_size. rewrite Hc. cbn [shape existsb filter numel fold_right].
    replace (-1 <? -1) with false by reflexivity.
    replace (-1 =? -1) with true by reflexivity.
    destruct (Z.ltb_spec cols (-1)); [lia|].
    destruct (Z.eqb_spec (-1) cols); [lia|].
    destruct (Z.eqb_spec cols (-1)); [lia|].
    cbn [orb negb filter numel fold_right map].
    replace (-1 =? -1) with true by reflexivity.
    rewrite Z.mul_1_r.
    destruct (Z.ltb_spec 0 cols); [|lia].
    rewrite Z.mod_mul by lia. cbn [andb Z.eqb].
    rewrite bind_ret_l. rewrite Z.div_mul by lia.
    cbn [contiguous_strides map numel fold_right].
    destruct (Z.eqb_spec cols (-1)); [lia|]. cbn [dtype data].
    replace (Z.max 1 cols * 1) with cols by lia. reflexivity. }
  rewrite Hv, bind_ret_l, bind_ret_l. cbn [shape unpack2]. rewrite bind_ret_l.
  destruct (Z.leb_spec rows 350000); [lia|]. reflexivity.
Qed.

Lemma softmax_large_path_raises_name_error_witness :
  softmax (mkTensor [350001; 1] [1; 1] float32 tt) None (-1)
  = (Raise (NameError "softmax_kernel_2"), []).
Proof.
  apply (softmax_large_path_raises_name_error unit descriptor_runtime); lia.
Defined.

Lemma bind_ext {D A B} (m : M D A) (f g : A -> M D B) :
  (forall a, result m = Ok a -> f a = g a) -> bind m f = bind m g.
Proof.
  intros H. destruct m as [[a | e] tr]; simpl; [|reflexivity].
  now rewrite (H a eq_refl).
Qed.

(** A [view] as rows of [c] columns returns only for a positive [c], and
    then has the rows that [c] leaves. *)
Lemma view_rows {D} {R : Runtime D} (t t' : Tensor D) c :
  result (view t [-1; c]) = Ok t' ->
  0 < c /\ shape t' = [numel (shape t) / c; c].
Proof.
  unfold view, infer_size. cbn [existsb filter].
  replace (-1 <? -1) with false by reflexivity.
  replace (-1 =? -1) with true by reflexivity.
  cbn [orb negb].
  destruct (c <? -1); [discriminate|].
  destruct (Z.eqb_spec (-1) c) as [<-|Hc]; [discriminate|].
  destruct (Z.eqb_spec c (-1)) as [->|Hc']; [congruence|].
  cbn [negb numel fold_right map]. replace (-1 =? -1) with true by reflexivity.
  destruct (Z.eqb_spec c (-1)); [congruence|].
  rewrite Z.mul_1_r.
  destruct (Z.ltb_spec 0 c); [|discriminate].
  destruct (numel (shape t) mod c =? 0); [|discriminate].
  cbn [andb orb]. rewrite bind_ret_l.
  destruct (is_contiguous t).
  - simpl. intros H'. inversion H'. auto.
  - destruct (rt_view_stride _ _ _); [|discriminate].
    simpl. intros H'. inversion H'. auto.
Qed.

Lemma getitem_ok {D} (s : list Z) i a :
  result (getitem (D := D) s i) = Ok a ->
  a = nth (Z.to_nat (if i <? 0 then i + len s else i)) s 0.
Proof.
  unfold getitem, len. destruct (_ && _); simpl; [congruence | discriminate].
Qed.

Lemma launch_ok {D} {R : Runtime D} kernel grid args kwargs out (t : Tensor D) :
  result (launch kernel grid args kwargs out) = Ok t -> shape t = shape out.
Proof. simpl. intros H. inversion H. reflexivity. Qed.

Lemma unpack4_ok {D} s (x : Z * Z * Z * Z) :
  result (unpack4 (D := D) s) = Ok x ->
  let '(a, b, c, d) := x in s = [a; b; c; d].
Proof.
  destruct s as [|a [|b [|c [|d [|]]]]]; simpl; try discriminate.
  intros H. inversion H. reflexivity.
Qed.

Lemma unpack2_ok {D} s (x : Z * Z) :
  result (unpack2 (D := D) s) = Ok x -> let '(a, b) := x in s = [a; b].
Proof.
  destruct s as [|a [|b [|]]]; simpl; try discriminate.
  intros H. inversion H. reflexivity.
Qed.

Lemma forward_fallback_ignores_mask {D} {R : Runtime D}
    (q k v : Tensor D) input_mask scale :
  350000 < leading_size q ->
  self_attention_forward_without_fusion q k v input_mask scale
  = self_attention_forward_without_fusion q k v None scale.
Proof.
  intros Hrows. unfold self_attention_forward_without_fusion.
  apply bind_ext; intros _ _.
  apply bind_ext; intros [[[batches M] H] K] Hq. apply unpack4_ok in Hq.
  do 2 (apply bind_ext; intros _ _).
  do 2 (apply bind_ext; intros ? _).
  apply bind_ext; intros _ _.
  apply bind_ext; intros N _.
  do 2 (apply bind_ext; intros ? _).
  apply bind_ext; intros kernel _.
  do 3 (apply bind_ext; intros ? _).
  apply bind_ext; intros score_output Hs. apply launch_ok in Hs.
  cbn [shape torch_empty] in Hs.
  apply bind_ext; intros so_last Hl. apply getitem_ok in Hl.
  apply bind_ext; intros score_output' Hv. apply view_rows in Hv.
  apply bind_ext; intros [n_rows n_cols] Hu. apply unpack2_ok in Hu.
  destruct Hv as [Hpos Hv]. rewrite Hu in Hv. rewrite Hs in Hv, Hl.
  change (so_last = N) in Hl. subst so_last.
  unfold leading_size in Hrows. rewrite Hq in Hrows.
  assert (Hn : n_rows = batches * H * M).
  { inversion Hv as [[Hr Hc]]. unfold numel. cbn [fold_right].
    replace (batches * (H * (M * (N * 1)))) with (batches * H * M * N) by ring.
    apply Z.div_mul. lia. }
  destruct (Z.leb_spec n_rows 350000); [lia|]. reflexivity.
Qed.

Ltac unpromoted_side := simpl; first [ exact I | reflexivity ].

Lemma forward_softmax_unpromoted {D} {R : Runtime D}
    (q k v : Tensor D) input_mask scale :
  Forall unpromoted_softmax
    (trace (self_attention_forward_without_fusion q k v input_mask scale)).
Proof.
  apply spec_trace with (Q := fun _ => True).
  unfold self_attention_forward_without_fusion. spec_walk unpromoted_side.
Qed.

(** C2: what the code does instead.  Beyond 350000 rows the plain flow
    computes the same thing whatever mask it is given, the same as with no
    mask at all, and its [F.softmax] call never carries a [dtype]: the mask
    is dropped and the reduction is not promoted. *)
Theorem plain_attention_fallback_drops_mask :
  forall (D : Type) (R : Runtime D) (q k v : Tensor D) input_mask scale,
    350000 < leading_size q ->
    self_attention_forward_without_fusion q k v input_mask scale
    = self_attention_forward_without_fusion q k v None scale
    /\ Forall unpromoted_softmax
         (trace (self_attention_forward_without_fusion q k v input_mask scale)).
Proof.
  intros. split; [now apply forward_fallback_ignores_mask|].
  apply forward_softmax_unpromoted.
Qed.

Lemma plain_attention_fallback_drops_mask_witness :
  self_attention_forward_without_fusion
    (descriptor [350001; 1; 1; 1] float16) (descriptor [350001; 1; 1; 1] float16)
    (descriptor [350001; 1; 1; 1] float16)
    (Some (descriptor [350001; 1; 1; 1] bool_)) 1%float
  = self_attention_forward_without_fusion
      (descriptor [350001; 1; 1; 1] float16) (descriptor [350001; 1; 1; 1] float16)
      (descriptor [350001; 1; 1; 1] float16) None 1%float
  /\ host_softmax_calls
       (trace (self_attention_forward_without_fusion
                 (descriptor [350001; 1; 1; 1] float16)
                 (descriptor [350001; 1; 1; 1] float16)
                 (descriptor [350001; 1; 1; 1] float16)
                 (Some (descriptor [350001; 1; 1; 1] bool_)) 1%float))
     = [(-1, None)].
Proof.
  split.
  - refine (proj1 (plain_attention_fallback_drops_mask unit descriptor_runtime
                     (descriptor [350001; 1; 1; 1] float16)
                     (descriptor [350001; 1; 1; 1] float16)
                     (descriptor [350001; 1; 1; 1] float16)
                     (Some (descriptor [350001; 1; 1; 1] bool_)) 1%float _)).
    vm_compute. reflexivity.
  - vm_compute. reflexivity.
Defined.

(** ** The scale sentinel of the GEMM kernel *)

Section GemmFacts.

Variables a_ptr b_ptr : Z -> Z.
Variables M N K : nat.
Variables stride_ab stride_ah stride_am stride_ak : Z.
Variables stride_bb stride_bh stride_bk stride_bn : Z.
Variables BLOCK_SIZE_M BLOCK_SIZE_N BLOCK_SIZE_K : nat.

Lemma sum_range_app s n m f :
  Gemm.sum_range s (n + m) f = Gemm.sum_range s n f + Gemm.sum_range (s + n) m f.
Proof.
  unfold Gemm.sum_range. rewrite seq_app.
  induction (seq s n) as [|x l IH]; cbn [app fold_right]; [lia|].
  rewrite IH. lia.
Qed.

Lemma sum_range_ext s n f g :
  (forall k, (s <= k < s + n)%nat -> f k = g k) ->
  Gemm.sum_range s n f = Gemm.sum_range s n g.
Proof.
  unfold Gemm.sum_range. revert s.
  induction n as [|n IH]; intros s H; [reflexivity|].
  cbn [seq fold_right]. rewrite (H s) by lia. rewrite (IH (S s)); [reflexivity|].
  intros k Hk. apply H. lia.
Qed.

Lemma sum_range_shift s n f :
  Gemm.sum_range 0 n (fun kk => f (s + kk)%nat) = Gemm.sum_range s n f.
Proof.
  revert s f. induction n as [|n IH]; intros s f; [reflexivity|].
  unfold Gemm.sum_range. cbn [seq fold_right]. rewrite Nat.add_0_r. f_equal.
  fold (Gemm.sum_range 1 n (fun kk => f (s + kk)%nat)).
  fold (Gemm.sum_range (S s) n f).
  rewrite <- (IH (S s) f). rewrite <- (IH 1%nat (fun kk => f (s + kk)%nat)).
  apply (sum_range_ext 0 n). intros k _. f_equal. lia.
Qed.

Lemma sum_range_zero s n f :
  (forall k, (s <= k < s + n)%nat -> f k = 0) -> Gemm.sum_range s n f = 0.
Proof.
  intros H. rewrite (sum_range_ext s n f (fun _ => 0) H).
  unfold Gemm.sum_range. induction (seq s n); cbn [fold_right]; lia.
Qed.

Lemma dot_chunk_sum batch head i j k0 :
  Gemm.dot_chunk a_ptr b_ptr M N K stride_ab stride_ah stride_am stride_ak
    stride_bb stride_bh stride_bk stride_bn BLOCK_SIZE_K batch head i j k0
  = Gemm.sum_range k0 BLOCK_SIZE_K
      (Gemm.product_term a_ptr b_ptr M N K stride_ab stride_ah stride_am stride_ak
         stride_bb stride_bh stride_bk stride_bn batch head i j).
Proof. rewrite <- sum_range_shift. reflexivity. Qed.

(** The reduction loop adds up the masked products of the chunks it
    visits. *)
Lemma accumulate_sum batch head i j chunks k0 acc :
  Gemm.accumulate a_ptr b_ptr M N K stride_ab stride_ah stride_am stride_ak
    stride_bb stride_bh stride_bk stride_bn BLOCK_SIZE_K batch head i j
    chunks k0 acc
  = acc + Gemm.sum_range k0 (chunks * BLOCK_SIZE_K)
            (Gemm.product_term a_ptr b_ptr M N K
               stride_ab stride_ah stride_am stride_ak
               stride_bb stride_bh stride_bk stride_bn batch head i j).
Proof.
  revert k0 acc. induction chunks as [|c IH]; intros k0 acc.
  - cbn. unfold Gemm.sum_range. cbn. lia.
  - cbn [Gemm.accumulate]. rewrite IH.
    replace (S c * BLOCK_SIZE_K)%nat with (BLOCK_SIZE_K + c * BLOCK_SIZE_K)%nat by lia.
    rewrite sum_range_app, dot_chunk_sum. lia.
Qed.

Lemma chunks_cover : (0 < BLOCK_SIZE_K)%nat ->
  (K <= (K + BLOCK_SIZE_K - 1) / BLOCK_SIZE_K * BLOCK_SIZE_K)%nat.
Proof.
  intros Hk.
  pose proof (Nat.div_mod_eq (K + BLOCK_SIZE_K - 1) BLOCK_SIZE_K).
  pose proof (Nat.mod_upper_bound (K + BLOCK_SIZE_K - 1) BLOCK_SIZE_K).
  nia.
Qed.

(** Inside the array, the chunked and masked reduction is the full sum. *)
Lemma reduction_is_product batch head i j :
  (0 < BLOCK_SIZE_K)%nat -> (i < M)%nat -> (j < N)%nat ->
  Gemm.accumulate a_ptr b_ptr M N K stride_ab stride_ah stride_am stride_ak
    stride_bb stride_bh stride_bk stride_bn BLOCK_SIZE_K batch head i j
    ((K + BLOCK_SIZE_K - 1) / BLOCK_SIZE_K)%nat 0%nat 0
  = Gemm.unscaled_product a_ptr b_ptr K stride_ab stride_ah stride_am stride_ak
      stride_bb stride_bh stride_bk stride_bn batch head i j.
Proof.
  intros Hk Hi Hj. rewrite accumulate_sum.
  pose proof (chunks_cover Hk) as Hc.
  set (n := ((K + BLOCK_SIZE_K - 1) / BLOCK_SIZE_K * BLOCK_SIZE_K)%nat) in *.
  replace n with (K + (n - K))%nat by lia.
  rewrite sum_range_app. rewrite (sum_range_zero (0 + K)).
  - unfold Gemm.unscaled_product, Gemm.sum_upto.
    rewrite Z.add_0_l, Z.add_0_r. apply sum_range_ext. intros k Hk'.
    unfold Gemm.product_term, Gemm.load.
    destruct (Nat.ltb_spec i M); [|lia].
    destruct (Nat.ltb_spec j N); [|lia].
    destruct (Nat.ltb_spec k K); [|lia]. reflexivity.
  - intros k Hk'. unfold Gemm.product_term, Gemm.load.
    destruct (Nat.ltb_spec k K); [lia|].
    rewrite !Bool.andb_false_r. reflexivity.
Qed.

(** The tile that covers [(i, j)] stores there the reduction, scaled. *)
Lemma gemm_output scale batch head i j :
  (0 < BLOCK_SIZE_M)%nat -> (0 < BLOCK_SIZE_N)%nat -> (0 < BLOCK_SIZE_K)%nat ->
  (i < M)%nat -> (j < N)%nat ->
  Gemm.qkv_gemm_4d_kernel a_ptr b_ptr M N K
    stride_ab stride_ah stride_am stride_ak
    stride_bb stride_bh stride_bk stride_bn
    scale BLOCK_SIZE_M BLOCK_SIZE_N BLOCK_SIZE_K batch head i j
  = Some (Gemm.apply_scale scale
            (Gemm.unscaled_product a_ptr b_ptr K
               stride_ab stride_ah stride_am stride_ak
               stride_bb stride_bh stride_bk stride_bn batch head i j)).
Proof.
  intros HM HN HK Hi Hj. unfold Gemm.qkv_gemm_4d_kernel, Gemm.program.
  assert (Ei : (i / BLOCK_SIZE_M * BLOCK_SIZE_M + i mod BLOCK_SIZE_M)%nat = i)
    by (pose proof (Nat.div_mod_eq i BLOCK_SIZE_M); lia).
  assert (Ej : (j / BLOCK_SIZE_N * BLOCK_SIZE_N + j mod BLOCK_SIZE_N)%nat = j)
    by (pose proof (Nat.div_mod_eq j BLOCK_SIZE_N); lia).
  rewrite Ei, Ej.
  pose proof (Nat.mod_upper_bound i BLOCK_SIZE_M ltac:(lia)).
  pose proof (Nat.mod_upper_bound j BLOCK_SIZE_N ltac:(lia)).
  destruct (Nat.ltb_spec (i mod BLOCK_SIZE_M) BLOCK_SIZE_M); [|lia].
  destruct (Nat.ltb_spec (j mod BLOCK_SIZE_N) BLOCK_SIZE_N); [|lia].
  destruct (Nat.ltb_spec i M); [|lia].
  destruct (Nat.ltb_spec j N); [|lia].
  cbn [andb]. f_equal. f_equal. now apply reduction_is_product.
Qed.

End GemmFacts.

(** C4: launched with [scale = -1], the GEMM kernel writes at every
    position of the output the plain product
    [sum_k A[b,h,i,k] * B[b,h,j,k]], with no scalar applied. *)
Theorem gemm_scale_minus_one_is_unscaled :
  forall (a_ptr b_ptr : Z -> Z) (M N K : nat)
         (stride_ab stride_ah stride_am stride_ak : Z)
         (stride_bb stride_bh stride_bk stride_bn : Z)
         (BLOCK_SIZE_M BLOCK_SIZE_N BLOCK_SIZE_K : nat) (batch head i j : nat),
    (0 < BLOCK_SIZE_M)%nat -> (0 < BLOCK_SIZE_N)%nat -> (0 < BLOCK_SIZE_K)%nat ->
    (i < M)%nat -> (j < N)%nat ->
    Gemm.qkv_gemm_4d_kernel a_ptr b_ptr M N K
      stride_ab stride_ah stride_am stride_ak
      stride_bb stride_bh stride_bk stride_bn
      (-1) BLOCK_SIZE_M BLOCK_SIZE_N BLOCK_SIZE_K batch head i j
    = Some (Gemm.unscaled_product a_ptr b_ptr K
              stride_ab stride_ah stride_am stride_ak
              stride_bb stride_bh stride_bk stride_bn batch head i j).
Proof.
  intros. rewrite gemm_output by assumption. reflexivity.
Qed.

Lemma gemm_scale_minus_one_is_unscaled_witness :
  Gemm.qkv_gemm_4d_kernel (fun o => o + 1) (fun o => 2 * o - 3) 3 2 5
    10 10 5 1 10 10 1 5 (-1) 2 2 2 0 0 2 1
  = Some (Gemm.unscaled_product (fun o => o + 1) (fun o => 2 * o - 3) 5
            10 10 5 1 10 10 1 5 0 0 2 1)
  /\ Gemm.unscaled_product (fun o => o + 1) (fun o => 2 * o - 3) 5
       10 10 5 1 10 10 1 5 0 0 2 1 = 735.
Proof.
  split.
  - apply gemm_scale_minus_one_is_unscaled; lia.
  - vm_compute. reflexivity.
Defined.

(** With any other scale, the same product is multiplied by it once. *)
Lemma gemm_other_scale_is_applied :
  Gemm.qkv_gemm_4d_kernel (fun o => o + 1) (fun o => 2 * o - 3) 3 2 5
    10 10 5 1 10 10 1 5 2 2 2 2 0 0 2 1 = Some 1470.
Proof. vm_compute. reflexivity. Qed.

(** Both flows launch the kernel twice: the first stage with the caller's
    scale, the second with the sentinel. *)
Example forward_second_stage_scale :
  gemm_scales
    (trace (self_attention_forward_without_fusion
              (descriptor [1; 4; 2; 8] float16) (descriptor [1; 4; 2; 8] float16)
              (descriptor [1; 4; 2; 8] float16) None 0.5%float))
  = [Some (arg_float 0.5%float); Some (arg_int (-1))].
Proof. vm_compute. reflexivity. Qed.

Example bloom_second_stage_scale :
  gemm_scales
    (trace (compute_attention_for_bloom
              (descriptor [1; 2; 3; 4] float16) (descriptor [1; 2; 4; 5] float16)
              (descriptor [1; 2; 5; 4] float16) (descriptor [1; 2; 3; 1] float16)
              1%float 0.5%float None (-1)%float None None true))
  = [Some (arg_float 0.5%float); Some (arg_int (-1))].
Proof. vm_compute. reflexivity. Qed.

(** * Returning runs, launches and shapes *)

(** ** What a returning call went through *)

Section Returns.
Context {D : Type} {R : Runtime D}.

Lemma bind_returns {A B} (m : M D A) (f : A -> M D B) b :
  result (bind m f) = Ok b ->
  exists a, result m = Ok a /\ result (f a) = Ok b.
Proof.
  intros H. destruct (bind_ok_inv m f b H) as (a & Ha & Hb & _). eauto.
Qed.

Lemma ret_returns {A} (a b : A) : result (ret (D := D) a) = Ok b -> a = b.
Proof. simpl. congruence. Qed.

Lemma assert_returns cond msg u :
  result (assert_ (D := D) cond msg) = Ok u -> cond = true.
Proof. destruct cond; [reflexivity | discriminate]. Qed.

Lemma launch_returns kernel grid args kwargs out (t : Tensor D) :
  result (launch kernel grid args kwargs out) = Ok t ->
  shape t = shape out /\ dtype t = dtype out.
Proof. simpl. intros H. inversion H. auto. Qed.

Lemma spec_returns {A} (m : M D A) (Q : A -> Prop) a :
  spec (fun _ => True) m Q -> result m = Ok a -> Q a.
Proof. intros [_ H]. apply H. Qed.

Lemma view_returns (t t' : Tensor D) sizes :
  result (view t sizes) = Ok t' ->
  dtype t' = dtype t
  /\ result (infer_size (D := D) sizes (numel (shape t))) = Ok (shape t').
Proof.
  unfold view. intros H. apply bind_returns in H. destruct H as (s & Hs & H).
  destruct (is_contiguous t).
  - apply ret_returns in H. subst t'. auto.
  - destruct (rt_view_stride _ _ _); [|discriminate].
    apply ret_returns in H. subst t'. auto.
Qed.

Lemma to_returns (t t' : Tensor D) dt :
  result (to t dt) = Ok t' -> shape t' = shape t /\ dtype t' = dt.
Proof. intros H. exact (spec_returns _ _ _ (spec_to _ t dt I) H). Qed.

Lemma F_softmax_returns (t t' : Tensor D) dim dt :
  result (F_softmax t dim dt) = Ok t' ->
  shape t' = shape t /\ dtype t' = match dt with Some d => d | None => dtype t end.
Proof. intros H. exact (spec_returns _ _ _ (spec_F_softmax _ t dim dt I) H). Qed.

Lemma iadd_returns (a b t' : Tensor D) :
  result (iadd a b) = Ok t' -> shape t' = shape a /\ dtype t' = dtype a.
Proof. intros H. exact (spec_returns _ _ _ (spec_iadd _ a b I) H). Qed.

Lemma masked_fill_returns (t mask t' : Tensor D) :
  result (masked_fill_finfo_min t mask) = Ok t' -> dtype t' = dtype t.
Proof. intros H. exact (spec_returns _ _ _ (spec_masked_fill_finfo_min _ t mask I) H). Qed.

End Returns.

(** Unfolding a returning computation into the steps it took. *)
Ltac returns_step :=
  match goal with
  | H : result (bind _ _) = Ok _ |- _ =>
      apply bind_returns in H;
      let a := fresh "x" in let Ha := fresh "Hx" in
      destruct H as (a & Ha & H)
  | H : result (ret _) = Ok _ |- _ => apply ret_returns in H
  | H : result (raise _) = Ok _ |- _ => discriminate H
  | H : result (assert_ _ _) = Ok _ |- _ => apply assert_returns in H
  | H : result (unpack4 _) = Ok _ |- _ => apply unpack4_ok in H
  | H : result (unpack2 _) = Ok _ |- _ => apply unpack2_ok in H
  | H : result (getitem _ _) = Ok _ |- _ => apply getitem_ok in H
  | H : result (load_global _) = Ok _ |- _ => apply load_global_ok in H
  | H : result (launch _ _ _ _ _) = Ok _ |- _ => apply launch_returns in H
  | H : result (view _ _) = Ok _ |- _ => apply view_returns in H
  | H : result (to _ _) = Ok _ |- _ => apply to_returns in H
  | H : result (F_softmax _ _ _) = Ok _ |- _ => apply F_softmax_returns in H
  | H : result (iadd _ _) = Ok _ |- _ => apply iadd_returns in H
  | H : result (masked_fill_finfo_min _ _) = Ok _ |- _ => apply masked_fill_returns in H
  | H : result (if ?b then _ else _) = Ok _ |- _ => destruct b eqn:?
  | H : result (match ?x with _ => _ end) = Ok _ |- _ => destruct x eqn:?
  | H : _ /\ _ |- _ => destruct H
  end.

(** X1: a [softmax] call that returns hands back a tensor with the shape
    and the dtype of its input, whatever the mask and the axis asked for. *)
Theorem softmax_returns_like_input :
  forall (D : Type) (R : Runtime D) (input : Tensor D) mask dim out,
    result (softmax input mask dim) = Ok out ->
    shape out = shape input /\ dtype out = dtype input.
Proof.
  intros D R input mask dim out H. unfold softmax in H.
  repeat returns_step; cbn [shape dtype torch_empty_like] in *; split; congruence.
Qed.

Lemma softmax_returns_like_input_witness :
  shape (mkTensor [3; 8] [8; 1] float16 tt) = shape (descriptor [3; 8] float16)
  /\ dtype (mkTensor [3; 8] [8; 1] float16 tt) = dtype (descriptor [3; 8] float16).
Proof.
  refine (softmax_returns_like_input unit descriptor_runtime
            (descriptor [3; 8] float16) None (-1)
            (mkTensor [3; 8] [8; 1] float16 tt) _).
  vm_compute. reflexivity.
Defined.

(** ** The stages of a returning call *)

Section Stages.
Context {D : Type} {R : Runtime D}.
Implicit Types t mask : Tensor D.

Lemma stage_names_app (a b : list (Event D)) :
  stage_names (a ++ b) = stage_names a ++ stage_names b.
Proof. apply flat_map_app. Qed.

Lemma trace_bind_returns {A B} (m : M D A) (f : A -> M D B) a :
  result m = Ok a -> trace (bind m f) = trace m ++ trace (f a).
Proof.
  destruct m as [[a' | e] tr]; simpl; [|discriminate].
  intros H. inversion H. subst. now destruct (f a).
Qed.

Lemma stageless_bind {A B} (m : M D A) (f : A -> M D B) :
  stageless m -> (forall a, stageless (f a)) -> stageless (bind m f).
Proof.
  unfold stageless. intros Hm Hf. destruct m as [[a | e] tr]; simpl in *.
  - specialize (Hf a). destruct (f a) as [r tr']. simpl in *.
    now rewrite stage_names_app, Hm, Hf.
  - exact Hm.
Qed.

Lemma stageless_pure {A} (m : M D A) : trace m = [] -> stageless m.
Proof. unfold stageless. now intros ->. Qed.

Lemma stageless_getitem s i : stageless (getitem (D := D) s i).
Proof. apply stageless_pure, getitem_pure. Qed.

Lemma stageless_assert c msg : stageless (assert_ (D := D) c msg).
Proof. now destruct c. Qed.

Lemma stageless_unpack4 s : stageless (unpack4 (D := D) s).
Proof. now destruct s as [|a [|b [|c [|d [|]]]]]. Qed.

Lemma stageless_unpack2 s : stageless (unpack2 (D := D) s).
Proof. now destruct s as [|a [|b [|]]]. Qed.

Lemma stageless_load_global n : stageless (load_global (D := D) n).
Proof. unfold load_global. now destruct (existsb _ _). Qed.

Lemma stageless_strides t axes : stageless (strides t axes).
Proof.
  induction axes as [|i axes IH]; simpl; [reflexivity|].
  apply stageless_bind; [apply stageless_getitem|]. intros s.
  apply stageless_bind; [apply IH|]. reflexivity.
Qed.

Lemma stageless_tensor_len t : stageless (tensor_len t).
Proof. unfold tensor_len. now destruct (shape t). Qed.

Lemma stageless_infer_size sizes n : stageless (infer_size (D := D) sizes n).
Proof.
  unfold infer_size. destruct (existsb _ _); [reflexivity|].
  destruct (filter _ sizes) as [|u [|u' us]]; try reflexivity.
  - now destruct (_ =? _).
  - now destruct (_ && _).
Qed.

Lemma stageless_view t sizes : stageless (view t sizes).
Proof.
  unfold view. apply stageless_bind; [apply stageless_infer_size|]. intros s.
  destruct (is_contiguous t); [reflexivity|]. now destruct (rt_view_stride _ _ _).
Qed.

Lemma stageless_expand t sizes : stageless (expand t sizes).
Proof. unfold expand. now destruct (expand_rev _ _). Qed.

Lemma stageless_broadcast a b : stageless (broadcast_shapes (D := D) a b).
Proof. unfold broadcast_shapes. now destruct (broadcast_rev _ _). Qed.

Lemma stageless_to t dt : stageless (to t dt).
Proof. unfold to. now destruct (DType_eqb _ _). Qed.

Lemma stageless_mul_scalar s t : stageless (mul_scalar s t).
Proof. reflexivity. Qed.

Lemma stageless_iadd (a b : Tensor D) : stageless (iadd a b).
Proof.
  unfold iadd. apply stageless_bind; [apply stageless_broadcast|]. intros s.
  now destruct (list_eqb _ _).
Qed.

Lemma stageless_mul (a b : Tensor D) : stageless (mul a b).
Proof.
  unfold mul. apply stageless_bind; [apply stageless_broadcast|]. reflexivity.
Qed.

Lemma stageless_masked_fill t mask : stageless (masked_fill_finfo_min t mask).
Proof.
  unfold masked_fill_finfo_min. destruct (negb _); [reflexivity|].
  apply stageless_bind; [apply stageless_broadcast|]. reflexivity.
Qed.

Lemma stageless_F_dropout t p tr ip : stageless (F_dropout t p tr ip).
Proof. unfold F_dropout. destruct (_ || _)%bool; [reflexivity|]. now destruct tr. Qed.

Lemma stageless_slice_axis2 t start stop : stageless (slice_axis2 t start stop).
Proof.
  unfold slice_axis2. now destruct (shape t) as [|d0 [|d1 [|d2 rest]]].
Qed.

Lemma stageless_floordiv a b : stageless (floordiv (D := D) a b).
Proof. unfold floordiv. now destruct (_ =? _). Qed.

Lemma stage_names_launch kernel grid args kwargs out :
  stage_names (trace (launch kernel grid args kwargs out)) = [kernel].
Proof. reflexivity. Qed.

Lemma stage_names_F_softmax t dim dt :
  stage_names (trace (F_softmax t dim dt)) = ["F.softmax"%string].
Proof. reflexivity. Qed.

End Stages.

(** Splitting the stages of a returning [bind] at its head. *)
Ltac stages_step :=
  match goal with
  | H : result (bind ?m ?f) = Ok _ |- context [trace (bind ?m ?f)] =>
      let a := fresh "x" in let Ha := fresh "Hx" in
      apply bind_returns in H; destruct H as (a & Ha & H);
      rewrite (trace_bind_returns m f a Ha), stage_names_app
  | H : result (if ?b then _ else _) = Ok _ |- _ => destruct b eqn:?
  | H : result (match ?x with _ => _ end) = Ok _ |- _ => destruct x eqn:?
  end.

Ltac stageless_of m :=
  lazymatch m with
  | getitem _ _ => apply stageless_getitem
  | stride_ _ _ => apply stageless_getitem
  | assert_ _ _ => apply stageless_assert
  | unpack4 _ => apply stageless_unpack4
  | unpack2 _ => apply stageless_unpack2
  | load_global _ => apply stageless_load_global
  | strides _ _ => apply stageless_strides
  | tensor_len _ => apply stageless_tensor_len
  | view _ _ => apply stageless_view
  | expand _ _ => apply stageless_expand
  | to _ _ => apply stageless_to
  | mul_scalar _ _ => apply stageless_mul_scalar
  | iadd _ _ => apply stageless_iadd
  | mul _ _ => apply stageless_mul
  | masked_fill_finfo_min _ _ => apply stageless_masked_fill
  | F_dropout _ _ _ _ => apply stageless_F_dropout
  | slice_axis2 _ _ _ => apply stageless_slice_axis2
  | floordiv _ _ => apply stageless_floordiv
  | ret _ => reflexivity
  end.

Ltac stages_done :=
  repeat match goal with
  | H : result (load_global _) = Ok _ |- _ => apply load_global_ok in H; subst
  end;
  repeat match goal with
  | |- context [stage_names (trace (launch ?k ?g ?a ?kw ?o))] =>
      rewrite (stage_names_launch k g a kw o)
  | |- context [stage_names (trace (F_softmax ?t ?d ?dt))] =>
      rewrite (stage_names_F_softmax t d dt)
  | |- context [stage_names (trace ?m)] =>
      let E := fresh in
      assert (E : stage_names (trace m) = []) by stageless_of m;
      rewrite E; clear E
  end;
  cbn [app].

(** X8: a returning call of the biased flow has run exactly three stages,
    in this order: the score GEMM, one softmax (the fused kernel when
    [batches * H * M] of [q] is at most 350000, [F.softmax] otherwise) and
    the value GEMM. *)
Theorem bloom_stage_sequence :
  forall (D : Type) (R : Runtime D) (q k v alibi : Tensor D) beta scale
         attention_mask drop_out head_mask layer_past use_cache out,
    result (compute_attention_for_bloom q k v alibi beta scale attention_mask
              drop_out head_mask layer_past use_cache) = Ok out ->
    stage_names
      (trace (compute_attention_for_bloom q k v alibi beta scale attention_mask
                drop_out head_mask layer_past use_cache))
    = ["qkv_gemm_4d_kernel"%string;
       if leading_size q <=? 350000 then "softmax_kernel"%string
       else "F.softmax"%string;
       "qkv_gemm_4d_kernel"%string].
Proof.
  intros D R q k v alibi beta scale attention_mask drop_out head_mask
         layer_past use_cache out H.
  unfold compute_attention_for_bloom in *.
  repeat stages_step.
  all: stages_done; stages_done.
  all: match goal with
    | H : result (unpack4 (shape ?t)) = Ok _ |- context [leading_size ?t] =>
        apply unpack4_ok in H; unfold leading_size; rewrite H
    end;
    match goal with
    | H : (_ <=? 350000) = _ |- _ => rewrite H
    end; reflexivity.
Qed.

Lemma bloom_stage_sequence_witness :
  stage_names
    (trace (compute_attention_for_bloom
       (descriptor [1; 2; 3; 4] float16) (descriptor [1; 2; 4; 5] float16)
       (descriptor [1; 2; 5; 4] float16) (descriptor [1; 2; 3; 1] float16)
       1%float 1%float None 0.5%float None None true))
  = ["qkv_gemm_4d_kernel"%string; "softmax_kernel"%string;
     "qkv_gemm_4d_kernel"%string].
Proof.
  refine (bloom_stage_sequence unit descriptor_runtime
       (descriptor [1; 2; 3; 4] float16) (descriptor [1; 2; 4; 5] float16)
       (descriptor [1; 2; 5; 4] float16) (descriptor [1; 2; 3; 1] float16)
       1%float 1%float None 0.5%float None None true
       (mkTensor [1; 3; 8] [24; 8; 1] float16 tt) _).
  vm_compute. reflexivity.
Defined.

(** X7: a returning call of the plain flow has run exactly three stages,
    in this order: the score GEMM, one softmax (the fused kernel when
    [batches * M * H] of [q] is at most 350000, [F.softmax] otherwise) and
    the value GEMM. *)
Theorem forward_stage_sequence :
  forall (D : Type) (R : Runtime D) (q k v : Tensor D) input_mask scale out,
    result (self_attention_forward_without_fusion q k v input_mask scale) = Ok out ->
    stage_names
      (trace (self_attention_forward_without_fusion q k v input_mask scale))
    = ["qkv_gemm_4d_kernel"%string;
       if leading_size q <=? 350000 then "softmax_kernel"%string
       else "F.softmax"%string;
       "qkv_gemm_4d_kernel"%string].
Proof.
  intros D R q k v input_mask scale out H.
  unfold self_attention_forward_without_fusion in *.
  repeat stages_step.
  all: stages_done; stages_done.
  all: repeat match goal with
       | H : result (unpack4 _) = Ok _ |- _ => apply unpack4_ok in H
       | H : result (unpack2 _) = Ok _ |- _ => apply unpack2_ok in H
       | H : result (launch _ _ _ _ _) = Ok _ |- _ => apply launch_returns in H; destruct H
       | H : result (view _ [-1; _]) = Ok _ |- _ => apply view_rows in H; destruct H
       | H : result (getitem _ _) = Ok _ |- _ => apply getitem_ok in H
       end.
  all: cbn [shape torch_empty] in *.
  all: match goal with
       | Hs : shape ?so = [?b; ?h; ?m; ?n],
         Hl : ?last = nth _ (shape ?so) 0,
         Hv : shape ?so' = [numel (shape ?so) / ?last; ?last],
         Hu : shape ?so' = [?rows; _],
         Hq : shape ?q = [?b; ?m; ?h; _],
         Hp : 0 < ?last |- context [leading_size ?q] =>
           rewrite Hs in Hl, Hv; change (last = n) in Hl; subst last;
           rewrite Hu in Hv; unfold leading_size; rewrite Hq;
           assert (rows = b * m * h)
             by (inversion Hv as [[Hr Hc]]; unfold numel; cbn [fold_right];
                 replace (b * (h * (m * (n * 1)))) with (b * m * h * n) by ring;
                 apply Z.div_mul; lia);
           subst rows
       end.
  all: match goal with H : (_ <=? 350000) = _ |- _ => rewrite H end; reflexivity.
Qed.

Lemma forward_stage_sequence_witness :
  stage_names
    (trace (self_attention_forward_without_fusion
       (descriptor [1; 4; 2; 8] float16) (descriptor [1; 4; 2; 8] float16)
       (descriptor [1; 4; 2; 8] float16) None 1%float))
  = ["qkv_gemm_4d_kernel"%string; "softmax_kernel"%string;
     "qkv_gemm_4d_kernel"%string].
Proof.
  refine (forward_stage_sequence unit descriptor_runtime
       (descriptor [1; 4; 2; 8] float16) (descriptor [1; 4; 2; 8] float16)
       (descriptor [1; 4; 2; 8] float16) None 1%float
       (mkTensor [1; 4; 16] [64; 16; 1] float16 tt) _).
  vm_compute. reflexivity.
Defined.

(** ** The shape of the result *)

Section Sizes.
Context {D : Type}.

(** Sizes without a [-1] are taken as they are. *)
Lemma infer_size_exact sizes n s :
  Forall (fun d => 0 <= d) sizes ->
  result (infer_size (D := D) sizes n) = Ok s -> s = sizes /\ numel sizes = n.
Proof.
  intros Hnn. unfold infer_size.
  assert (E1 : existsb (fun d => d <? -1) sizes = false).
  { induction Hnn as [|d l Hd _ IH]; cbn [existsb]; [reflexivity|].
    destruct (Z.ltb_spec d (-1)); [lia | exact IH]. }
  assert (E2 : filter (Z.eqb (-1)) sizes = []).
  { clear E1. induction Hnn as [|d l Hd _ IH]; cbn [filter]; [reflexivity|].
    destruct (Z.eqb_spec (-1) d); [lia | exact IH]. }
  assert (E3 : filter (fun d => negb (d =? -1)) sizes = sizes).
  { clear E1 E2. induction Hnn as [|d l Hd _ IH]; cbn [filter]; [reflexivity|].
    destruct (Z.eqb_spec d (-1)); [lia|]. cbn [negb]. now rewrite IH. }
  rewrite E1, E2, E3. destruct (Z.eqb_spec (numel sizes) n); [|discriminate].
  simpl. intros H. inversion H. subst. auto.
Qed.

(** [view(b, -1, d)]: the middle axis takes what [b] and [d] leave. *)
Lemma infer_size_middle b d n s :
  0 <= b -> 0 <= d ->
  result (infer_size (D := D) [b; -1; d] n) = Ok s ->
  0 < b * d /\ s = [b; n / (b * d); d].
Proof.
  intros Hb Hd. unfold infer_size. cbn [existsb filter].
  replace (-1 <? -1) with false by reflexivity.
  replace (-1 =? -1) with true by reflexivity.
  destruct (Z.ltb_spec b (-1)); [lia|]. destruct (Z.ltb_spec d (-1)); [lia|].
  destruct (Z.eqb_spec (-1) b); [lia|]. destruct (Z.eqb_spec (-1) d); [lia|].
  destruct (Z.eqb_spec b (-1)); [lia|]. destruct (Z.eqb_spec d (-1)); [lia|].
  cbn [orb negb numel fold_right map].
  replace (-1 =? -1) with true by reflexivity.
  destruct (Z.eqb_spec b (-1)); [lia|]. destruct (Z.eqb_spec d (-1)); [lia|].
  rewrite Z.mul_1_r.
  destruct (Z.ltb_spec 0 (b * d)); [|discriminate].
  destruct (n mod (b * d) =? 0); [|discriminate].
  simpl. intros H'. inversion H'. auto.
Qed.

End Sizes.

(** Bringing what a run established into equations between sizes. *)
Ltac size_facts :=
  repeat match goal with
  | H : list_eqb _ _ = true |- _ => apply list_eqb_eq in H
  | H : _ :: _ = shape ?t |- _ => symmetry in H
  | H : shape ?t = _ :: _, H' : context [shape ?t] |- _ =>
      lazymatch H' with H => fail | _ => rewrite H in H' end
  | H : ?x = nth _ (_ :: _) 0 |- _ => is_var x; vm_compute in H; subst x
  | H : _ :: _ = _ :: _ |- _ => inversion H; clear H; subst
  | H : (_ =? _) = true |- _ => apply Z.eqb_eq in H
  end.

Section InferRows.
Context {D : Type}.

Lemma infer_size_rows c n s :
  result (infer_size (D := D) [-1; c] n) = Ok s -> 0 < c /\ s = [n / c; c].
Proof.
  unfold infer_size. cbn [existsb filter].
  replace (-1 <? -1) with false by reflexivity.
  replace (-1 =? -1) with true by reflexivity.
  cbn [orb negb].
  destruct (c <? -1); [discriminate|].
  destruct (Z.eqb_spec (-1) c) as [<-|Hc]; [discriminate|].
  destruct (Z.eqb_spec c (-1)) as [->|Hc']; [congruence|].
  cbn [negb numel fold_right map]. replace (-1 =? -1) with true by reflexivity.
  destruct (Z.eqb_spec c (-1)); [congruence|].
  rewrite Z.mul_1_r.
  destruct (Z.ltb_spec 0 c); [|discriminate].
  destruct (n mod c =? 0); [|discriminate].
  simpl. intros H'. inversion H'. auto.
Qed.

End InferRows.

(** What a returning call of the plain flow tells about its operands and
    its result. *)
Lemma forward_returns {D} {R : Runtime D} (q k v : Tensor D) input_mask scale out
    (b M H K : Z) :
  shape q = [b; M; H; K] -> 0 <= b -> 0 <= M -> 0 <= H -> 0 <= K ->
  result (self_attention_forward_without_fusion q k v input_mask scale) = Ok out ->
  shape out = [b; M; K * H] /\ dtype out = dtype q
  /\ 0 < b /\ 0 < M /\ 0 < H /\ 0 < K.
Proof.
  intros Hq Hb HM HH HK Hout.
  unfold self_attention_forward_without_fusion in Hout. rewrite Hq in Hout.
  repeat returns_step.
  all: cbn [shape dtype torch_empty] in *.
  all: size_facts.
  all: try match goal with
       | H : result (infer_size [_; _; _; _] _) = Ok _ |- _ =>
           apply infer_size_exact in H; [destruct H as [H _] | repeat constructor; assumption]
       end.
  all: size_facts.
  all: match goal with
       | H : result (infer_size [?b; -1; ?d] _) = Ok _ |- _ =>
           apply infer_size_middle in H; [destruct H as [Hpos H] | lia | nia]
       end.
  all: match goal with
       | H : result (infer_size [-1; _] _) = Ok _ |- _ =>
           apply infer_size_rows in H; destruct H as [Hrow _]
       end.
  all: split; [|split; [congruence | nia]].
  all: match goal with H : shape ?o = _ |- shape ?o = _ => rewrite H end.
  all: f_equal; f_equal; unfold numel; cbn [fold_right].
  all: match goal with
       | |- ?b * (?m * (?h * (?k * 1))) / _ = _ =>
           replace (b * (m * (h * (k * 1)))) with (m * (b * (k * h))) by ring
       end.
  all: apply Z.div_mul; lia.
Qed.

(** X9: for [q] of shape [(b, M, H, K)], a returning call of the plain
    flow yields a tensor of shape [(b, M, K * H)] with the dtype of [q]. *)
Theorem forward_output_shape :
  forall (D : Type) (R : Runtime D) (q k v : Tensor D) input_mask scale out
         (b M H K : Z),
    shape q = [b; M; H; K] -> 0 <= b -> 0 <= M -> 0 <= H -> 0 <= K ->
    result (self_attention_forward_without_fusion q k v input_mask scale) = Ok out ->
    shape out = [b; M; K * H] /\ dtype out = dtype q.
Proof.
  intros D R q k v input_mask scale out b M H K Hq Hb HM HH HK Hout.
  destruct (forward_returns q k v input_mask scale out b M H K Hq Hb HM HH HK Hout)
    as (Hs & Hd & _).
  now split.
Qed.

Lemma forward_output_shape_witness :
  shape (mkTensor [1; 4; 16] [64; 16; 1] float16 tt) = [1; 4; 8 * 2]
  /\ dtype (mkTensor [1; 4; 16] [64; 16; 1] float16 tt) = dtype (descriptor [1; 4; 2; 8] float16).
Proof.
  refine (forward_output_shape unit descriptor_runtime
       (descriptor [1; 4; 2; 8] float16) (descriptor [1; 4; 2; 8] float16)
       (descriptor [1; 4; 2; 8] float16) None 1%float
       (mkTensor [1; 4; 16] [64; 16; 1] float16 tt) 1 4 2 8 _ _ _ _ _ _).
  - reflexivity.
  - lia.
  - lia.
  - lia.
  - lia.
  - vm_compute. reflexivity.
Defined.

(** X10: the plain flow raises whenever [q] has an axis of size zero: no
    such call returns a result. *)
Theorem forward_rejects_empty_operands :
  forall (D : Type) (R : Runtime D) (q k v : Tensor D) input_mask scale
         (b M H K : Z),
    shape q = [b; M; H; K] -> 0 <= b -> 0 <= M -> 0 <= H -> 0 <= K ->
    b * M * H * K = 0 ->
    exists e,
      result (self_attention_forward_without_fusion q k v input_mask scale) = Raise e.
Proof.
  intros D R q k v input_mask scale b M H K Hq Hb HM HH HK Hz.
  destruct (result (self_attention_forward_without_fusion q k v input_mask scale))
    as [out | e] eqn:Hr; [|now exists e].
  destruct (forward_returns q k v input_mask scale out b M H K Hq Hb HM HH HK Hr)
    as (_ & _ & Hb' & HM' & HH' & HK').
  nia.
Qed.

Lemma forward_rejects_empty_operands_witness :
  exists e,
    result (self_attention_forward_without_fusion
       (descriptor [1; 0; 2; 8] float16) (descriptor [1; 0; 2; 8] float16)
       (descriptor [1; 0; 2; 8] float16) None 1%float) = Raise e.
Proof.
  refine (forward_rejects_empty_operands unit descriptor_runtime
       (descriptor [1; 0; 2; 8] float16) (descriptor [1; 0; 2; 8] float16)
       (descriptor [1; 0; 2; 8] float16) None 1%float 1 0 2 8 _ _ _ _ _ _).
  - reflexivity.
  - lia.
  - lia.
  - lia.
  - lia.
  - reflexivity.
Defined.

Section PackedSizes.
Context {D : Type} {R : Runtime D}.

(** [view(b, -1, h, d)]: the second axis takes what the others leave. *)
Lemma infer_size_second b h d n s :
  0 <= b -> 0 <= h -> 0 <= d ->
  result (infer_size (D := D) [b; -1; h; d] n) = Ok s ->
  0 < b * (h * d) /\ s = [b; n / (b * (h * d)); h; d].
Proof.
  intros Hb Hh Hd. unfold infer_size. cbn [existsb filter].
  replace (-1 <? -1) with false by reflexivity.
  replace (-1 =? -1) with true by reflexivity.
  destruct (Z.ltb_spec b (-1)); [lia|]. destruct (Z.ltb_spec h (-1)); [lia|].
  destruct (Z.ltb_spec d (-1)); [lia|].
  destruct (Z.eqb_spec (-1) b); [lia|]. destruct (Z.eqb_spec (-1) h); [lia|].
  destruct (Z.eqb_spec (-1) d); [lia|].
  destruct (Z.eqb_spec b (-1)); [lia|]. destruct (Z.eqb_spec h (-1)); [lia|].
  destruct (Z.eqb_spec d (-1)); [lia|].
  cbn [orb negb numel fold_right map].
  replace (-1 =? -1) with true by reflexivity.
  destruct (Z.eqb_spec b (-1)); [lia|]. destruct (Z.eqb_spec h (-1)); [lia|].
  destruct (Z.eqb_spec d (-1)); [lia|].
  rewrite Z.mul_1_r.
  destruct (Z.ltb_spec 0 (b * (h * d))); [|discriminate].
  destruct (n mod (b * (h * d)) =? 0); [|discriminate].
  simpl. intros H'. inversion H'. auto.
Qed.

Lemma slice_axis2_returns (t t' : Tensor D) start stop :
  result (slice_axis2 t start stop) = Ok t' ->
  dtype t' = dtype t
  /\ exists d0 d1 d2 rest,
       shape t = d0 :: d1 :: d2 :: rest
       /\ shape t' = d0 :: d1
                     :: Z.max 0 (match stop with
                                 | Some stop => Z.min stop d2
                                 | None => d2
                                 end - Z.min start d2) :: rest.
Proof.
  unfold slice_axis2. destruct (shape t) as [|d0 [|d1 [|d2 rest]]]; try discriminate.
  simpl. intros H. inversion H. simpl. eauto 10.
Qed.

Lemma floordiv_returns a b c :
  result (floordiv (D := D) a b) = Ok c -> b <> 0 /\ c = a / b.
Proof.
  unfold floordiv. destruct (Z.eqb_spec b 0); [discriminate|].
  simpl. intros H. inversion H. auto.
Qed.

End PackedSizes.

(** X11: for a packed [qkv] of shape [(b, s, 3 * h * head_size)], a
    returning call of the packed entry point yields a tensor of shape
    [(b, s, head_size * h)] with the dtype of [qkv]. *)
Theorem packed_output_shape :
  forall (D : Type) (R : Runtime D) (qkv : Tensor D) input_mask layer_past alibi
         scale head_size triangular use_flash out (b s h : Z),
    shape qkv = [b; s; 3 * (h * head_size)] ->
    0 <= b -> 0 <= s -> 0 <= h -> 0 < head_size ->
    result (self_attention_compute_using_triton qkv input_mask layer_past alibi
              scale head_size triangular use_flash) = Ok out ->
    shape out = [b; s; head_size * h] /\ dtype out = dtype qkv.
Proof.
  intros D R qkv input_mask layer_past alibi scale d triangular use_flash out
         b s h Hs Hb Hs0 Hh Hd Hout.
  remember (3 * (h * d)) as w eqn:Hw.
  assert (Edm : w / 3 = h * d)
    by (subst w; rewrite Z.mul_comm; apply Z.div_mul; lia).
  assert (Hw' : 3 * (h * d) <= w <= 3 * (h * d)) by lia. clear Hw.
  unfold self_attention_compute_using_triton in Hout. rewrite Hs in Hout.
  repeat first
    [ match goal with
      | H : result (slice_axis2 _ _ _) = Ok _ |- _ =>
          apply slice_axis2_returns in H; destruct H as (? & ? & ? & ? & ? & ? & ?)
      | H : result (floordiv _ _) = Ok _ |- _ => apply floordiv_returns in H
      end
    | returns_step ].
  size_facts.
  assert (Enh : h * d / d = h) by (apply Z.div_mul; lia).
  match goal with
  | E : ?w / 3 = h * d |- _ =>
      rewrite E in *; rewrite Enh in *;
      assert (Eq : Z.max 0 (Z.min (h * d) w - Z.min 0 w) = h * d) by nia;
      assert (Ek : Z.max 0 (Z.min (h * d * 2) w - Z.min (h * d) w) = h * d) by nia;
      assert (Ev : Z.max 0 (w - Z.min (h * d * 2) w) = h * d) by nia;
      rewrite ?Eq, ?Ek, ?Ev in *
  end.
  match goal with
  | Hv : result (infer_size [?b'; -1; h; d] _) = Ok (shape ?q'),
    Hf : result (self_attention_forward_without_fusion ?q' _ _ _ _) = Ok _ |- _ =>
      apply infer_size_second in Hv; [destruct Hv as [Hpos Hv] | lia ..];
      unfold numel in Hv; cbn [fold_right] in Hv;
      match type of Hv with
      | shape _ = [_; ?b * (?s' * (?hd * 1)) / _; _; _] =>
          replace (b * (s' * (hd * 1))) with (s' * (b * (h * d))) in Hv by ring;
          rewrite Z.div_mul in Hv by lia
      end;
      destruct (forward_returns _ _ _ _ _ _ _ _ _ _ Hv
                  ltac:(lia) ltac:(lia) ltac:(lia) ltac:(lia) Hf) as (Ho & Hdt & _)
  end.
  split; [assumption | congruence].
Qed.

Lemma packed_output_shape_witness :
  shape (mkTensor [2; 5; 8] [40; 8; 1] float16 tt) = [2; 5; 4 * 2]
  /\ dtype (mkTensor [2; 5; 8] [40; 8; 1] float16 tt)
     = dtype (descriptor [2; 5; 24] float16).
Proof.
  refine (packed_output_shape unit descriptor_runtime
            (descriptor [2; 5; 24] float16) None None None 1%float 4 false false
            (mkTensor [2; 5; 8] [40; 8; 1] float16 tt) 2 5 2 _ _ _ _ _ _).
  - reflexivity.
  - lia.
  - lia.
  - lia.
  - lia.
  - vm_compute. reflexivity.
Defined.

Section LastAxis.
Context {D : Type}.

(** [view(b, -1, d)] keeps its first and last sizes. *)
Lemma infer_size_keeps_ends b d n s :
  0 <= d ->
  result (infer_size (D := D) [b; -1; d] n) = Ok s ->
  0 < b * d /\ exists x, s = [b; x; d].
Proof.
  intros Hd. unfold infer_size. cbn [existsb filter].
  replace (-1 <? -1) with false by reflexivity.
  replace (-1 =? -1) with true by reflexivity.
  destruct (Z.ltb_spec b (-1)); [discriminate|].
  destruct (Z.ltb_spec d (-1)); [lia|].
  destruct (Z.eqb_spec (-1) d); [lia|]. destruct (Z.eqb_spec d (-1)); [lia|].
  cbn [orb negb].
  destruct (Z.eqb_spec (-1) b) as [<-|Hb]; [discriminate|].
  destruct (Z.eqb_spec b (-1)); [lia|].
  cbn [negb numel fold_right map].
  replace (-1 =? -1) with true by reflexivity.
  destruct (Z.eqb_spec b (-1)); [lia|]. destruct (Z.eqb_spec d (-1)); [lia|].
  rewrite Z.mul_1_r.
  destruct (Z.ltb_spec 0 (b * d)); [|discriminate].
  destruct (_ mod _ =? 0); [|discriminate].
  simpl. intros H'. inversion H'. eauto.
Qed.

End LastAxis.

(** What a returning call of the biased flow tells about its operands and
    its result. *)
Lemma bloom_returns {D} {R : Runtime D} (q k v alibi : Tensor D) beta scale
    attention_mask drop_out head_mask layer_past use_cache out (b H M K : Z) :
  shape q = [b; H; M; K] -> 0 <= H -> 0 <= K ->
  result (compute_attention_for_bloom q k v alibi beta scale attention_mask
            drop_out head_mask layer_past use_cache) = Ok out ->
  dtype out = dtype q /\ 0 < H /\ 0 < K
  /\ exists b' s, shape out = [b'; s; H * K].
Proof.
  intros Hq HH HK Hout.
  unfold compute_attention_for_bloom in Hout. rewrite Hq in Hout.
  repeat returns_step.
  all: cbn [shape dtype torch_empty] in *.
  all: size_facts.
  all: match goal with
       | Hv : result (infer_size [?b'; -1; _] _) = Ok (shape ?o) |- _ =>
           apply infer_size_keeps_ends in Hv;
           [destruct Hv as [Hpos [s' Hv]] | nia]
       end.
  all: match goal with
       | Hp : 0 < _ * (?h * ?k) |- _ =>
           assert (h <> 0 /\ k <> 0) as [? ?]
             by (split; intros E; rewrite E in Hp;
                 rewrite ?Z.mul_0_l, ?Z.mul_0_r in Hp; lia)
       end.
  all: split; [congruence | split; [lia | split; [lia | eauto]]].
Qed.

(** X12: for [q] of shape [(b, H, M, K)], a returning call of the biased
    flow yields a rank-3 tensor whose last axis is [H * K], in the dtype of
    [q], whatever masks and dropout were applied on the way. *)
Theorem bloom_output_dtype_and_width :
  forall (D : Type) (R : Runtime D) (q k v alibi : Tensor D) beta scale
         attention_mask drop_out head_mask layer_past use_cache out
         (b H M K : Z),
    shape q = [b; H; M; K] -> 0 <= H -> 0 <= K ->
    result (compute_attention_for_bloom q k v alibi beta scale attention_mask
              drop_out head_mask layer_past use_cache) = Ok out ->
    dtype out = dtype q /\ exists b' s, shape out = [b'; s; H * K].
Proof.
  intros D R q k v alibi beta scale attention_mask drop_out head_mask
         layer_past use_cache out b H M K Hq HH HK Hout.
  destruct (bloom_returns q k v alibi beta scale attention_mask drop_out
              head_mask layer_past use_cache out b H M K Hq HH HK Hout)
    as (Hd & _ & _ & Hs).
  now split.
Qed.

Lemma bloom_output_dtype_and_width_witness :
  dtype (mkTensor [1; 3; 8] [24; 8; 1] float16 tt)
  = dtype (descriptor [1; 2; 3; 4] float16)
  /\ exists b' s, shape (mkTensor [1; 3; 8] [24; 8; 1] float16 tt) = [b'; s; 2 * 4].
Proof.
  refine (bloom_output_dtype_and_width unit descriptor_runtime
       (descriptor [1; 2; 3; 4] float16) (descriptor [1; 2; 4; 5] float16)
       (descriptor [1; 2; 5; 4] float16) (descriptor [1; 2; 3; 1] float16)
       1%float 1%float None 0.5%float None None true
       (mkTensor [1; 3; 8] [24; 8; 1] float16 tt) 1 2 3 4 _ _ _ _).
  - reflexivity.
  - lia.
  - lia.
  - vm_compute. reflexivity.
Defined.

(** X13: the biased flow raises whenever [q] has no head or heads of
    width zero: no such call returns a result. *)
Theorem bloom_rejects_empty_heads :
  forall (D : Type) (R : Runtime D) (q k v alibi : Tensor D) beta scale
         attention_mask drop_out head_mask layer_past use_cache
         (b H M K : Z),
    shape q = [b; H; M; K] -> 0 <= H -> 0 <= K -> H * K = 0 ->
    exists e,
      result (compute_attention_for_bloom q k v alibi beta scale attention_mask
                drop_out head_mask layer_past use_cache) = Raise e.
Proof.
  intros D R q k v alibi beta scale attention_mask drop_out head_mask
         layer_past use_cache b H M K Hq HH HK Hz.
  destruct (result (compute_attention_for_bloom q k v alibi beta scale
                      attention_mask drop_out head_mask layer_past use_cache))
    as [out | e] eqn:Hr; [|now exists e].
  destruct (bloom_returns q k v alibi beta scale attention_mask drop_out
              head_mask layer_past use_cache out b H M K Hq HH HK Hr)
    as (_ & HH' & HK' & _).
  nia.
Qed.

Lemma bloom_rejects_empty_heads_witness :
  exists e,
    result (compute_attention_for_bloom
       (descriptor [1; 0; 3; 4] float16) (descriptor [1; 0; 4; 5] float16)
       (descriptor [1; 0; 5; 4] float16) (descriptor [1; 0; 3; 1] float16)
       1%float 1%float None 0.5%float None None true) = Raise e.
Proof.
  refine (bloom_rejects_empty_heads unit descriptor_runtime
       (descriptor [1; 0; 3; 4] float16) (descriptor [1; 0; 4; 5] float16)
       (descriptor [1; 0; 5; 4] float16) (descriptor [1; 0; 3; 1] float16)
       1%float 1%float None 0.5%float None None true 1 0 3 4 _ _ _ _).
  - reflexivity.
  - lia.
  - lia.
  - reflexivity.
Defined.

(** ** The launch of the standalone softmax *)

Section Launches.
Context {D : Type} {R : Runtime D}.

Lemma launches_app (a b : list (Event D)) :
  launches (a ++ b) = launches a ++ launches b.
Proof. apply flat_map_app. Qed.

(** A computation that runs no stage launches nothing. *)
Lemma stageless_launches {A} (m : M D A) : stageless m -> launches (trace m) = [].
Proof.
  unfold stageless. induction (trace m) as [|e tr IH]; [reflexivity|].
  destruct e as [l | op args]; simpl; [discriminate|].
  destruct op; simpl; auto; discriminate.
Qed.

Lemma launches_launch kernel grid args kwargs out :
  launches (trace (launch kernel grid args kwargs out))
  = [mkLaunch kernel (grid kwargs) args kwargs].
Proof. reflexivity. Qed.

Lemma tensor_eq_launches a b : launches (trace (tensor_eq a b)) = [].
Proof.
  unfold tensor_eq, broadcast_shapes. destruct (broadcast_rev _ _); reflexivity.
Qed.

Lemma tensor_bool_launches t : launches (trace (tensor_bool t)) = [].
Proof.
  unfold tensor_bool. destruct (_ =? _); [reflexivity|]. now destruct (_ <? _).
Qed.

Lemma select_last_launches t : launches (trace (select_last t)) = [].
Proof.
  unfold select_last. destruct (shape t); [reflexivity|]. now destruct (_ <=? _).
Qed.

End Launches.

(** Splitting the launches of a returning [bind] at its head. *)
Ltac launches_step :=
  match goal with
  | H : result (bind ?m ?f) = Ok _ |- context [trace (bind ?m ?f)] =>
      let a := fresh "x" in let Ha := fresh "Hx" in
      apply bind_returns in H; destruct H as (a & Ha & H);
      rewrite (trace_bind_returns m f a Ha), launches_app
  | H : result (if ?b then _ else _) = Ok _ |- _ => destruct b eqn:?
  | H : result (match ?x with _ => _ end) = Ok _ |- _ => destruct x eqn:?
  end.

Ltac launches_done :=
  repeat match goal with
  | H : result (load_global _) = Ok _ |- _ => apply load_global_ok in H; subst
  end;
  repeat match goal with
  | |- context [launches (trace (launch ?k ?g ?a ?kw ?o))] =>
      rewrite (launches_launch k g a kw o)
  | |- context [launches (trace (tensor_eq ?a ?b))] =>
      rewrite (tensor_eq_launches a b)
  | |- context [launches (trace (tensor_bool ?a))] =>
      rewrite (tensor_bool_launches a)
  | |- context [launches (trace (select_last ?a))] =>
      rewrite (select_last_launches a)
  | |- context [launches (trace ?m)] =>
      let E := fresh in
      assert (E : launches (trace m) = [])
        by (apply stageless_launches; stageless_of m);
      rewrite E; clear E
  end;
  cbn [app].

Section RowsExact.
Context {D : Type}.



End RowsExact.



(** ** Failing calls *)

Section Raises.
Context {D : Type} {R : Runtime D}.

(** A [bind] raises at its head, with the head's trace, or after its head
    returned. *)
Lemma bind_raises {A B} (m : M D A) (f : A -> M D B) e :
  result (bind m f) = Raise e ->
  (result m = Raise e /\ trace (bind m f) = trace m)
  \/ (exists a, result m = Ok a /\ result (f a) = Raise e
                /\ trace (bind m f) = trace m ++ trace (f a)).
Proof.
  unfold result, trace, bind. destruct m as [[a | e'] tr]; cbn [fst snd].
  - intros H. right. exists a. destruct (f a) as [r tr']. cbn [fst snd] in *.
    repeat split; auto.
  - intros H. left. injection H as ->. split; reflexivity.
Qed.

Lemma launch_never_raises kernel grid args kwargs (out : Tensor D) e :
  result (launch kernel grid args kwargs out) <> Raise e.
Proof. discriminate. Qed.

End Raises.

Ltac raises_step :=
  cbv beta in *;
  match goal with
  | H : result (bind ?m ?f) = Raise ?e |- context [trace (bind ?m ?f)] =>
      let a := fresh "x" in let Ha := fresh "Hx" in let Ht := fresh "Ht" in
      let Hk := fresh "Hk" in
      destruct (bind_raises m f e H) as [[Ha Ht] | (a & Ha & Hk & Ht)];
      rewrite Ht; clear Ht H; [ | rewrite launches_app ]
  | H : result (if ?b then _ else _) = Raise _ |- _ => destruct b eqn:?
  | H : result (match ?x with _ => _ end) = Raise _ |- _ => destruct x eqn:?
  | H : result (launch _ _ _ _ _) = Raise _ |- _ =>
      exfalso; exact (launch_never_raises _ _ _ _ _ _ H)
  end.

(** X3: a [softmax] call that raises has launched no kernel: every check
    comes before the launch. *)
Theorem softmax_raises_before_launch :
  forall (D : Type) (R : Runtime D) (input : Tensor D) mask dim e,
    result (softmax input mask dim) = Raise e ->
    launches (trace (softmax input mask dim)) = [].
Proof.
  intros D R input mask dim e H. unfold softmax in *.
  repeat first [ raises_step | launches_step ].
  all: launches_done; launches_done.
  all: try reflexivity.

Qed.

Lemma softmax_raises_before_launch_witness :
  launches (trace (softmax (descriptor [3; 0] float16) None (-1))) = [].
Proof.
  refine (softmax_raises_before_launch unit descriptor_runtime
            (descriptor [3; 0] float16) None (-1)
            (RuntimeError "shape is invalid for input size") _).
  vm_compute. reflexivity.
Defined.

(** ** Blocks and grids *)

Lemma smear_exact m :
  0 < m < 2 ^ 64 -> smear m = 2 ^ (Z.log2 m + 1) - 1.
Proof.
  intros [Hpos Hlt].
  pose proof (Z.log2_nonneg m) as Hn.
  destruct (Z.log2_spec m Hpos) as [Hlo Hhi].
  replace (Z.succ (Z.log2 m)) with (Z.log2 m + 1) in Hhi by lia.
  assert (Hl : Z.log2 m <= 63).
  { assert (Z.log2 m < 64) by (apply Z.log2_lt_pow2; lia). lia. }
  pose proof (smear_below m (Z.log2 m + 1) ltac:(lia) ltac:(lia)).
  pose proof (smear_above m (Z.log2 m) ltac:(lia) Hlo).
  lia.
Qed.

Lemma block_size_padded n_cols :
  0 <= n_cols <= 2 ^ 64 -> padded_block n_cols (block_size_of n_cols).
Proof.
  intros [H0 H64]. unfold block_size_of. rewrite next_power_of_2_smear.
  destruct (Z.le_gt_cases n_cols 1) as [Hs | Hb].
  - exists 1. assert (Hm : smear (n_cols - 1) + 1 <= 1).
    { destruct (Z.eq_dec n_cols 0) as [-> | Hne].
      - change (0 - 1) with (-1). pose proof (smear_neg (-1) ltac:(lia)). lia.
      - replace (n_cols - 1) with 0 by lia. rewrite smear_0. lia. }
    rewrite Z.max_r by lia. repeat split; lia.
  - rewrite smear_exact by lia.
    set (p := Z.log2 (n_cols - 1)).
    pose proof (Z.log2_nonneg (n_cols - 1)) as Hn. fold p in Hn.
    destruct (Z.log2_spec (n_cols - 1) ltac:(lia)) as [Hlo Hhi]. fold p in Hlo, Hhi.
    replace (Z.succ p) with (p + 1) in Hhi by lia.
    assert (Hp : 2 ^ (p + 1) = 2 * 2 ^ p) by (rewrite Z.pow_add_r by lia; lia).
    exists (p + 1).
    replace (2 ^ (p + 1) - 1 + 1) with (2 ^ (p + 1)) by lia.
    rewrite Z.max_l by lia. repeat split; lia.
Qed.

Lemma warps_bucketed_covers {D} (e : Event D) :
  warps_bucketed e -> block_covers_row e.
Proof.
  destruct e as [l | op args]; [|exact id]. simpl. intros H Hl.
  destruct (H Hl) as [n_cols Hc].
  exists n_cols, (num_warps_of_cols n_cols), (block_size_of n_cols).
  split; [exact Hc | apply block_size_padded].
Qed.

(** X4: at every dispatch site, the [BLOCK_SIZE] of a [softmax_kernel]
    launch is the least power of two, and at least 2, that holds a whole
    row, for rows of up to [2 ^ 64] columns. *)
Theorem softmax_block_holds_whole_row :
  forall (D : Type) (R : Runtime D),
    (forall input mask dim,
        Forall block_covers_row (trace (softmax input mask dim)))
    /\ (forall q k v input_mask scale,
          Forall block_covers_row
            (trace (self_attention_forward_without_fusion q k v input_mask scale)))
    /\ (forall q k v alibi beta scale attention_mask drop_out head_mask
               layer_past use_cache,
          Forall block_covers_row
            (trace (compute_attention_for_bloom q k v alibi beta scale
                      attention_mask drop_out head_mask layer_past use_cache))).
Proof.
  intros D R. repeat split; intros;
    (eapply Forall_impl; [exact warps_bucketed_covers|]).
  - apply softmax_warps_bucketed.
  - apply forward_warps_bucketed.
  - apply bloom_warps_bucketed.
Qed.

Lemma cdiv_covers x y : 0 < y -> x <= cdiv x y * y < x + y.
Proof.
  intros Hy. unfold cdiv.
  pose proof (Z.div_mod (x + y - 1) y ltac:(lia)).
  pose proof (Z.mod_pos_bound (x + y - 1) y Hy). lia.
Qed.

Lemma numel_4 a b c d : numel [a; b; c; d] = a * b * (c * d).
Proof. unfold numel. cbn [fold_right]. ring. Qed.

Lemma numel_4_swap a b c d : numel [a; c; b; d] = a * b * (c * d).
Proof. unfold numel. cbn [fold_right]. ring. Qed.

Lemma cdiv_lower x y : 0 < y -> x <= cdiv x y * y.
Proof. intros Hy. apply (cdiv_covers x y Hy). Qed.

Lemma cdiv_upper x y : 0 < y -> cdiv x y * y < x + y.
Proof. intros Hy. apply (cdiv_covers x y Hy). Qed.

Ltac tiles_side lower upper n4 n4' :=
  try exact I;
  first
    [ let H := fresh in intros H; discriminate H
    | intros _; do 9 eexists;
      repeat match goal with |- _ /\ _ => split end;
      first [ reflexivity | apply n4 | apply n4'
            | apply lower; reflexivity | apply upper; reflexivity ] ].

(** X6: in both flows, every [qkv_gemm_4d_kernel] launch has a grid of
    [batches] by [H] by tiles, where the output buffer holds
    [batches * H * M * N] elements and the tiles, of [BLOCK_SIZE_M] by
    [BLOCK_SIZE_N], cover the [M] by [N] product with no tile to spare on
    either axis. *)
Theorem gemm_grid_covers_output :
  forall (D : Type) (R : Runtime D),
    (forall q k v input_mask scale,
        Forall tiles_cover_output
          (trace (self_attention_forward_without_fusion q k v input_mask scale)))
    /\ (forall q k v alibi beta scale attention_mask drop_out head_mask
               layer_past use_cache,
          Forall tiles_cover_output
            (trace (compute_attention_for_bloom q k v alibi beta scale
                      attention_mask drop_out head_mask layer_past use_cache))).
Proof.
  intros D R. split; intros; apply spec_trace with (Q := fun _ => True).
  - unfold self_attention_forward_without_fusion.
    spec_walk ltac:(tiles_side cdiv_lower cdiv_upper numel_4 numel_4_swap).
  - unfold compute_attention_for_bloom.
    spec_walk ltac:(tiles_side cdiv_lower cdiv_upper numel_4 numel_4_swap).
Qed.

Ltac rows_side :=
  try exact I;
  first
    [ let H := fresh in intros H; vm_compute in H; discriminate H
    | intros _; do 3 eexists;
      repeat match goal with |- _ /\ _ => split end;
      first [ reflexivity | eassumption | exact I
            | apply Z.leb_le; eassumption ] ].

(** X5: in both flows, a [softmax_kernel] launch runs one program per
    row of a two-dimensional input.  The plain flow hands it the caller's
    mask as it is and at most 350000 rows; the biased flow never hands it a
    mask. *)
Theorem fused_softmax_one_program_per_row :
  forall (D : Type) (R : Runtime D),
    (forall q k v input_mask scale,
        Forall (row_per_program (opt_arg input_mask) (Some 350000))
          (trace (self_attention_forward_without_fusion q k v input_mask scale)))
    /\ (forall q k v alibi beta scale attention_mask drop_out head_mask
               layer_past use_cache,
          Forall (row_per_program arg_none None)
            (trace (compute_attention_for_bloom q k v alibi beta scale
                      attention_mask drop_out head_mask layer_past use_cache))).
Proof.
  intros D R. split; intros; apply spec_trace with (Q := fun _ => True).
  - unfold self_attention_forward_without_fusion. spec_walk rows_side.
  - unfold compute_attention_for_bloom. spec_walk rows_side.
Qed.

(** ** The bias guard *)

Section Quiet.
Context {D : Type} {R : Runtime D}.

Lemma fails_quietly_bind {A B} (m : M D A) (f : A -> M D B) :
  trace m = [] ->
  (forall a, result m = Ok a -> fails_quietly (f a)) ->
  fails_quietly (bind m f).
Proof.
  destruct m as [[a | e] tr]; unfold trace, result; cbn [fst snd]; intros -> Hf.
  - destruct (Hf a eq_refl) as [e He]. exists e. unfold bind. now rewrite He.
  - now exists e.
Qed.

Lemma assert_pure c msg : trace (assert_ (D := D) c msg) = [].
Proof. now destruct c. Qed.

Lemma unpack4_pure s : trace (unpack4 (D := D) s) = [].
Proof. now destruct s as [|a [|b [|c [|d [|]]]]]. Qed.

Lemma tensor_len_pure (t : Tensor D) : trace (tensor_len t) = [].
Proof. unfold tensor_len. now destruct (shape t). Qed.

Lemma expand_pure (t : Tensor D) sizes : trace (expand t sizes) = [].
Proof. unfold expand. now destruct (expand_rev _ _). Qed.

Lemma removelast_3 (l : list Z) a b c :
  [a; b; c] = removelast l -> exists x, l = [a; b; c; x].
Proof.
  destruct l as [|x0 [|x1 [|x2 [|x3 [|x4 l]]]]]; cbn; intros H;
    try discriminate H; inversion H; eauto.
Qed.

(** [expand] to four sizes of a tensor that agrees on the first three:
    its last axis has the size asked for, or 1. *)
Lemma expand_last_axis (t t' : Tensor D) a b c n x :
  shape t = [a; b; c; x] -> List.length (stride t) = List.length (shape t) ->
  0 <= n ->
  result (expand t [a; b; c; n]) = Ok t' -> x = n \/ x = 1.
Proof.
  intros Hs Hl Hn. unfold expand. rewrite Hs in *.
  destruct (stride t) as [|s0 [|s1 [|s2 [|s3 [|]]]]]; try discriminate Hl.
  cbn [rev combine app expand_rev].
  destruct (Z.eqb_spec n (-1)); [lia|]. cbn [orb].
  destruct (Z.eqb_spec n x); [auto|].
  destruct (Z.eqb_spec x 1); [auto|]. discriminate.
Qed.

End Quiet.

(** X14: for rank-4 [q] and [k], the biased flow raises before anything
    is launched or computed unless [alibi] has the shape of the score
    matrix [(batches, H, M, N)], or that shape with a last axis of 1. *)
Theorem bloom_rejects_mismatched_alibi :
  forall (D : Type) (R : Runtime D) (q k v alibi : Tensor D) beta scale
         attention_mask drop_out head_mask layer_past use_cache
         (b H M K kb kh kk N : Z),
    shape q = [b; H; M; K] -> shape k = [kb; kh; kk; N] -> 0 <= N ->
    List.length (stride alibi) = List.length (shape alibi) ->
    shape alibi <> [b; H; M; N] -> shape alibi <> [b; H; M; 1] ->
    fails_quietly
      (compute_attention_for_bloom q k v alibi beta scale attention_mask
         drop_out head_mask layer_past use_cache).
Proof.
  intros D R q k v alibi beta scale attention_mask drop_out head_mask
         layer_past use_cache b H M K kb kh kk N Hq Hk HN Hl Hne1 Hne2.
  unfold compute_attention_for_bloom. rewrite Hq, Hk.
  repeat first
    [ apply fails_quietly_bind;
      [ first [ apply assert_pure | apply getitem_pure | apply unpack4_pure
              | apply tensor_len_pure | apply expand_pure ]
      | intros ? ? ]
    | match goal with
      | |- fails_quietly (match ?x with _ => _ end) => destruct x as [[[? ?] ?] ?]
      end ].
  repeat returns_step.
  exfalso.
  match goal with
  | E : [_; _; _; _] = [?x0; ?x1; ?x2; ?x3] |- _ =>
      inversion E; subst x0 x1 x2 x3
  end.
  match goal with
  | E : ?n = nth _ [kb; kh; kk; N] 0 |- _ => vm_compute in E; subst n
  end.
  match goal with
  | E : list_eqb _ (removelast (shape alibi)) = true |- _ =>
      apply list_eqb_eq in E; cbn [shape torch_empty removelast] in E;
      apply removelast_3 in E; destruct E as [x Ex]
  end.
  match goal with
  | E : result (expand alibi _) = Ok _ |- _ =>
      destruct (expand_last_axis _ _ _ _ _ _ _ Ex Hl HN E); subst x; contradiction
  end.
Qed.

Lemma bloom_rejects_mismatched_alibi_witness :
  fails_quietly
    (compute_attention_for_bloom
       (descriptor [1; 2; 3; 4] float16) (descriptor [1; 2; 4; 5] float16)
       (descriptor [1; 2; 5; 4] float16) (descriptor [1; 2; 3; 2] float16)
       1%float 1%float None 0.5%float None None true).
Proof.
  refine (bloom_rejects_mismatched_alibi unit descriptor_runtime
       (descriptor [1; 2; 3; 4] float16) (descriptor [1; 2; 4; 5] float16)
       (descriptor [1; 2; 5; 4] float16) (descriptor [1; 2; 3; 2] float16)
       1%float 1%float None 0.5%float None None true 1 2 3 4 1 2 4 5 _ _ _ _ _ _).
  - reflexivity.
  - reflexivity.
  - lia.
  - reflexivity.
  - simpl. congruence.
  - simpl. congruence.
Defined.

(** * Dropout and precision in the biased flow *)

(** ** The trace of each call *)

Section TraceOf.
Context {D : Type} {R : Runtime D}.

Lemma result_bind_returns {A B} (m : M D A) (f : A -> M D B) a :
  result m = Ok a -> result (bind m f) = result (f a).
Proof.
  destruct m as [[a' | e] tr]; unfold result; cbn [fst bind]; [|discriminate].
  intros H. inversion H. subst. now destruct (f a).
Qed.

Lemma unpack2_pure s : trace (unpack2 (D := D) s) = [].
Proof. now destruct s as [|a [|b [|]]]. Qed.

Lemma load_global_pure n : trace (load_global (D := D) n) = [].
Proof. unfold load_global. now destruct (existsb _ _). Qed.

Lemma strides_pure (t : Tensor D) axes : trace (strides t axes) = [].
Proof.
  induction axes as [|i axes IH]; [reflexivity|]. cbn [strides].
  unfold stride_. destruct (getitem (stride t) i) as [[s | e] tr] eqn:E.
  - pose proof (getitem_pure (D := D) (stride t) i) as Hp. rewrite E in Hp.
    cbn [trace snd] in Hp. subst tr.
    destruct (strides t axes) as [[ss | e] tr'] eqn:E'; cbn [trace snd] in IH;
      subst tr'; reflexivity.
  - pose proof (getitem_pure (D := D) (stride t) i) as Hp. rewrite E in Hp.
    cbn [trace snd] in Hp. subst tr. reflexivity.
Qed.

Lemma infer_size_pure sizes n : trace (infer_size (D := D) sizes n) = [].
Proof.
  unfold infer_size. destruct (existsb _ _); [reflexivity|].
  destruct (filter _ sizes) as [|u [|u' us]]; try reflexivity.
  - now destruct (_ =? _).
  - now destruct (_ && _).
Qed.

Lemma view_pure (t : Tensor D) sizes : trace (view t sizes) = [].
Proof.
  unfold view. pose proof (infer_size_pure sizes (numel (shape t))) as Hp.
  destruct (infer_size sizes (numel (shape t))) as [[s | e] tr];
    cbn [trace snd] in Hp; subst tr; [|reflexivity].
  cbn [bind]. destruct (is_contiguous t); [reflexivity|].
  now destruct (rt_view_stride _ _ _).
Qed.

Lemma launch_trace kernel grid args kwargs (out : Tensor D) :
  trace (launch kernel grid args kwargs out)
  = [ev_launch (mkLaunch kernel (grid kwargs) args kwargs)].
Proof. reflexivity. Qed.

Lemma launch_result kernel grid args kwargs (out t : Tensor D) :
  result (launch kernel grid args kwargs out) = Ok t ->
  t = mkTensor (shape out) (stride out) (dtype out)
        (rt_launch (mkLaunch kernel (grid kwargs) args kwargs)).
Proof. cbn. intros H. now inversion H. Qed.

Lemma to_trace (t : Tensor D) dt :
  trace (to t dt)
  = if DType_eqb (dtype t) dt then [] else [ev_host (op_to dt) [t]].
Proof. unfold to. now destruct (DType_eqb _ _). Qed.

Lemma to_result (t x : Tensor D) dt :
  result (to t dt) = Ok x -> x = cast_result t dt.
Proof.
  unfold to, cast_result. destruct (DType_eqb _ _); cbn; intros H; now inversion H.
Qed.

Lemma mul_scalar_trace s (t : Tensor D) :
  trace (mul_scalar s t) = [ev_host (op_mul_scalar s) [t]].
Proof. reflexivity. Qed.

Lemma F_softmax_trace (t : Tensor D) dim dt :
  trace (F_softmax t dim dt) = [ev_host (op_softmax dim dt) [t]].
Proof. reflexivity. Qed.

Lemma F_softmax_result (t x : Tensor D) dim dt :
  result (F_softmax t dim dt) = Ok x ->
  x = mkTensor (shape t) (contiguous_strides (shape t))
        (match dt with Some d => d | None => dtype t end)
        (rt_host (op_softmax dim dt) [t]).
Proof. cbn. intros H. now inversion H. Qed.

Lemma iadd_trace (a b x : Tensor D) :
  result (iadd a b) = Ok x -> trace (iadd a b) = [ev_host op_iadd [a; b]].
Proof.
  unfold iadd, broadcast_shapes. destruct (broadcast_rev _ _); [|discriminate].
  cbn [bind ret]. destruct (list_eqb _ _); [reflexivity | discriminate].
Qed.

Lemma mul_trace (a b x : Tensor D) :
  result (mul a b) = Ok x -> trace (mul a b) = [ev_host op_mul [a; b]].
Proof.
  unfold mul, broadcast_shapes. destruct (broadcast_rev _ _); [|discriminate].
  reflexivity.
Qed.

Lemma masked_fill_trace (t mask x : Tensor D) :
  result (masked_fill_finfo_min t mask) = Ok x ->
  trace (masked_fill_finfo_min t mask)
  = [ev_host (op_masked_fill_finfo_min (dtype t)) [t; mask]].
Proof.
  unfold masked_fill_finfo_min, broadcast_shapes.
  destruct (negb _); [discriminate|].
  destruct (broadcast_rev _ _); [|discriminate]. reflexivity.
Qed.

(** [F.dropout] outside training returns its input. *)
Lemma F_dropout_inference (t x : Tensor D) p inplace :
  result (F_dropout t p false inplace) = Ok x ->
  x = t /\ trace (F_dropout t p false inplace) = [ev_host (op_dropout p false inplace) [t]].
Proof.
  unfold F_dropout. destruct (_ || _)%bool; [discriminate|].
  cbn. intros H. now inversion H.
Qed.

End TraceOf.

(** ** Runs that differ by the dropout step *)

Section Steps.
Context {D : Type} {R : Runtime D}.

Lemma flat_map_nil {A B} (f : A -> list B) l :
  Forall (fun x => f x = []) l -> flat_map f l = [].
Proof. induction 1 as [|x l Hx _ IH]; cbn; [reflexivity|]. now rewrite Hx, IH. Qed.

Lemma filter_all {A} (f : A -> bool) l :
  Forall (fun x => f x = true) l -> filter f l = l.
Proof. induction 1 as [|x l Hx _ IH]; cbn; [reflexivity|]. now rewrite Hx, IH. Qed.

(** The dropout step outside training: the call and the cast back leave
    the tensor as it is. *)
Lemma dropout_step (t x : Tensor D) p inplace dt :
  dtype t = dt ->
  result (bind (F_dropout t p false inplace) (fun dropped => to dropped dt)) = Ok x ->
  x = t
  /\ trace (bind (F_dropout t p false inplace) (fun dropped => to dropped dt))
     = [ev_host (op_dropout p false inplace) [t]].
Proof.
  intros Hdt H. apply bind_returns in H. destruct H as (d & Hd & H).
  rewrite (trace_bind_returns _ _ d Hd).
  apply F_dropout_inference in Hd. destruct Hd as [-> Ht]. rewrite Ht.
  unfold to in *. rewrite Hdt, DType_eqb_refl in *.
  apply ret_returns in H. now subst.
Qed.

Lemma same_without_dropout_bind {A B} (m : M D A) (f g : A -> M D B) b :
  Forall (fun e => not_dropout e = true) (trace m) ->
  (forall a, result m = Ok a -> same_without_dropout b (f a) (g a)) ->
  same_without_dropout b (bind m f) (bind m g).
Proof.
  intros Hm Hfg H. apply bind_returns in H. destruct H as (a & Ha & H).
  destruct (Hfg a Ha H) as [Hr Ht].
  rewrite (result_bind_returns m g a Ha), !(trace_bind_returns m _ a Ha).
  rewrite filter_app, (filter_all _ _ Hm), Ht. auto.
Qed.

Lemma same_without_dropout_step {B} (t : Tensor D) p inplace dt
    (rest : Tensor D -> M D B) b :
  dtype t = dt ->
  Forall (fun e => not_dropout e = true) (trace (rest t)) ->
  same_without_dropout b
    (bind (bind (F_dropout t p false inplace) (fun dropped => to dropped dt)) rest)
    (bind (ret t) rest).
Proof.
  intros Hdt Hrest H. apply bind_returns in H. destruct H as (x & Hx & H).
  rewrite (trace_bind_returns _ rest x Hx).
  destruct (dropout_step t x p inplace dt Hdt Hx) as [-> Ht].
  rewrite Ht, bind_ret_l. cbn [app filter not_dropout is_dropout negb].
  now rewrite (filter_all _ _ Hrest).
Qed.

End Steps.

Ltac not_dropout_side := first [ reflexivity | exact I ].

Lemma bloom_dropout_changes_nothing {D} {R : Runtime D}
    (q k v alibi : Tensor D) beta scale attention_mask drop_out head_mask
    layer_past use_cache out :
  dropout_guard drop_out = true ->
  same_without_dropout out
    (compute_attention_for_bloom q k v alibi beta scale attention_mask
       drop_out head_mask layer_past use_cache)
    (compute_attention_for_bloom q k v alibi beta scale attention_mask
       (-1)%float head_mask layer_past use_cache).
Proof.
  intros Hg. unfold compute_attention_for_bloom. unfold dropout_guard in Hg.
  rewrite Hg.
  change (PrimFloat.ltb 0 (-1) && PrimFloat.ltb (-1) 1)%bool with false.
  cbv iota.
  repeat lazymatch goal with
  | |- same_without_dropout _ (bind (bind (F_dropout _ _ _ _) _) _) _ => fail
  | |- same_without_dropout _ (bind ?m _) (bind ?m _) =>
      apply same_without_dropout_bind;
      [ apply spec_trace with (Q := fun _ => True); spec_walk not_dropout_side
      | let a := fresh "a" in let Ha := fresh "Ha" in intros a Ha ]
  | |- same_without_dropout _ (match ?x with _ => _ end) _ => destruct x
  end.
  apply same_without_dropout_step.
  - match goal with
    | Hs : result (if _ <=? 350000 then _ else _) = Ok _ |- _ =>
        clear - Hs; repeat returns_step
    end.
    all: cbn [dtype torch_empty] in *; congruence.
  - apply spec_trace with (Q := fun _ => True). spec_walk not_dropout_side.
Qed.

(** ** Returning runs with their traces *)

Section YieldsRules.
Context {D : Type} {R : Runtime D}.

Lemma yields_ret {A} (a : A) (Q : A -> list (Event D) -> Prop) :
  Q a [] -> yields (ret a) Q.
Proof. intros HQ a' H. apply ret_returns in H. now subst. Qed.

Lemma yields_raise {A} e (Q : A -> list (Event D) -> Prop) : yields (raise e) Q.
Proof. intros a H. discriminate H. Qed.

Lemma yields_conseq {A} (m : M D A) (Q Q' : A -> list (Event D) -> Prop) :
  yields m Q -> (forall a l, Q a l -> Q' a l) -> yields m Q'.
Proof. intros Hm HQ a H. auto. Qed.

Lemma yields_bind {A C} (m : M D A) (k : A -> M D C) Q1
    (Q : C -> list (Event D) -> Prop) :
  yields m Q1 ->
  (forall a l, Q1 a l -> yields (k a) (fun c l' => Q c (l ++ l'))) ->
  yields (bind m k) Q.
Proof.
  intros Hm Hk c H. apply bind_returns in H. destruct H as (a & Ha & H).
  rewrite (trace_bind_returns m k a Ha).
  exact (Hk a _ (Hm a Ha) c H).
Qed.

Lemma bind_assoc {A C E} (m : M D A) (g : A -> M D C) (k : C -> M D E) :
  bind (bind m g) k = bind m (fun a => bind (g a) k).
Proof.
  destruct m as [[a | e] tr]; cbn [bind]; [|reflexivity].
  destruct (g a) as [[c | e] tr']; cbn [bind]; [|reflexivity].
  destruct (k c) as [r tr'']. now rewrite app_assoc.
Qed.

Lemma yields_assoc {A C E} (m : M D A) (g : A -> M D C) (k : C -> M D E) Q :
  yields (bind m (fun a => bind (g a) k)) Q -> yields (bind (bind m g) k) Q.
Proof. now rewrite bind_assoc. Qed.

Lemma yields_ret_bind {A C} (a : A) (k : A -> M D C) Q :
  yields (k a) Q -> yields (bind (ret a) k) Q.
Proof. now rewrite bind_ret_l. Qed.

Lemma yields_pure {A} (m : M D A) :
  trace m = [] -> yields m (fun a l => l = [] /\ result m = Ok a).
Proof. intros Hp a H. rewrite Hp. auto. Qed.

Lemma yields_launch kernel grid args kwargs (out : Tensor D) :
  yields (launch kernel grid args kwargs out)
    (fun t l =>
       l = [ev_launch (mkLaunch kernel (grid kwargs) args kwargs)]
       /\ t = mkTensor (shape out) (stride out) (dtype out)
                (rt_launch (mkLaunch kernel (grid kwargs) args kwargs))).
Proof. intros t H. split; [reflexivity | now apply launch_result]. Qed.

Lemma yields_host op args s dt :
  yields (host op args s dt)
    (fun t l =>
       l = [ev_host op args]
       /\ t = mkTensor s (contiguous_strides s) dt (rt_host op args)).
Proof. intros t H. cbn in H. inversion H. auto. Qed.

Lemma yields_to (t : Tensor D) dt :
  yields (to t dt) (fun x l => l = cast_events t dt /\ x = cast_result t dt).
Proof. intros x H. split; [apply to_trace | now apply to_result]. Qed.

Lemma yields_mul_scalar s (t : Tensor D) :
  yields (mul_scalar s t)
    (fun x l =>
       l = [ev_host (op_mul_scalar s) [t]]
       /\ x = mkTensor (shape t) (contiguous_strides (shape t)) (dtype t)
                (rt_host (op_mul_scalar s) [t])).
Proof. apply yields_host. Qed.

Lemma yields_F_softmax (t : Tensor D) dim dt :
  yields (F_softmax t dim dt)
    (fun x l =>
       l = [ev_host (op_softmax dim dt) [t]]
       /\ x = mkTensor (shape t) (contiguous_strides (shape t))
                (match dt with Some d => d | None => dtype t end)
                (rt_host (op_softmax dim dt) [t])).
Proof. apply yields_host. Qed.

Lemma yields_iadd (a b : Tensor D) :
  yields (iadd a b)
    (fun x l =>
       l = [ev_host op_iadd [a; b]]
       /\ x = mkTensor (shape a) (stride a) (dtype a) (rt_host op_iadd [a; b])).
Proof.
  intros x H. rewrite (iadd_trace a b x H). split; [reflexivity|].
  unfold iadd, broadcast_shapes in H. destruct (broadcast_rev _ _); [|discriminate].
  cbn [bind ret] in H. destruct (list_eqb _ _); [|discriminate].
  cbn in H. now inversion H.
Qed.

Lemma yields_mul (a b : Tensor D) :
  yields (mul a b)
    (fun x l =>
       l = [ev_host op_mul [a; b]]
       /\ dtype x = promote_types (dtype a) (dtype b)
       /\ data x = rt_host op_mul [a; b]).
Proof.
  intros x H. rewrite (mul_trace a b x H). split; [reflexivity|].
  unfold mul, broadcast_shapes in H. destruct (broadcast_rev _ _); [|discriminate].
  cbn in H. inversion H. auto.
Qed.

Lemma yields_masked_fill (t mask : Tensor D) :
  yields (masked_fill_finfo_min t mask)
    (fun x l =>
       l = [ev_host (op_masked_fill_finfo_min (dtype t)) [t; mask]]
       /\ dtype x = dtype t
       /\ data x = rt_host (op_masked_fill_finfo_min (dtype t)) [t; mask]).
Proof.
  intros x H. rewrite (masked_fill_trace t mask x H). split; [reflexivity|].
  unfold masked_fill_finfo_min, broadcast_shapes in H.
  destruct (negb _); [discriminate|].
  destruct (broadcast_rev _ _); [|discriminate].
  cbn in H. inversion H. auto.
Qed.

Lemma yields_F_dropout_inference (t : Tensor D) p inplace :
  yields (F_dropout t p false inplace)
    (fun x l => l = [ev_host (op_dropout p false inplace) [t]] /\ x = t).
Proof.
  intros x H. destruct (F_dropout_inference t x p inplace H) as [-> Ht]. auto.
Qed.

End YieldsRules.

Section CastFacts.
Context {D : Type} {R : Runtime D}.

Lemma dtype_cast_result (t : Tensor D) dt : dtype (cast_result t dt) = dt.
Proof.
  unfold cast_result. destruct (DType_eqb _ _) eqn:E; [|reflexivity].
  now apply DType_eqb_eq.
Qed.

Lemma shape_cast_result (t : Tensor D) dt : shape (cast_result t dt) = shape t.
Proof. unfold cast_result. now destruct (DType_eqb _ _). Qed.

Lemma cast_result_same (t : Tensor D) dt : dtype t = dt -> cast_result t dt = t.
Proof. intros <-. unfold cast_result. now rewrite DType_eqb_refl. Qed.

End CastFacts.

(** Running through a returning computation, one call at a time. *)
Ltac yields_call :=
  first
    [ apply yields_launch | apply yields_to | apply yields_mul_scalar
    | apply yields_F_softmax | apply yields_iadd | apply yields_mul
    | apply yields_masked_fill | apply yields_F_dropout_inference
    | apply yields_pure;
      first [ apply getitem_pure | apply assert_pure | apply unpack4_pure
            | apply unpack2_pure | apply load_global_pure | apply strides_pure
            | apply tensor_len_pure | apply view_pure | apply expand_pure ] ].

Ltac yields_intro :=
  let a := fresh "r" in let l := fresh "l" in
  let Hl := fresh "Hl" in let Ha := fresh "Hr" in
  intros a l [Hl Ha]; subst l; cbv beta;
  try match type of Ha with
      | result (load_global _) = Ok _ => apply load_global_ok in Ha; subst a
      end.

Ltac yields_walk :=
  lazymatch goal with
  | |- yields (bind (bind _ _) _) _ => apply yields_assoc; yields_walk
  | |- yields (bind (ret _) _) _ => apply yields_ret_bind; cbv beta; yields_walk
  | |- yields (bind (raise _) _) _ => intros ? H; discriminate H
  | |- yields (bind (if ?b then _ else _) _) _ => destruct b eqn:?; yields_walk
  | |- yields (bind (match ?x with _ => _ end) _) _ => destruct x eqn:?; yields_walk
  | |- yields (bind _ _) _ =>
      eapply yields_bind; [ yields_call | ]; yields_intro; yields_walk
  | |- yields (if ?b then _ else _) _ => destruct b eqn:?; yields_walk
  | |- yields (match ?x with _ => _ end) _ => destruct x eqn:?; yields_walk
  | |- yields (ret _) _ => apply yields_ret
  | |- yields (raise _) _ => apply yields_raise
  | |- yields _ _ =>
      eapply yields_conseq; [ yields_call | ]; yields_intro
  end.

Section Projections.
Context {D : Type} {R : Runtime D} {B : Type}.

Lemma flat_map_cast_events (f : Event D -> list B) (t : Tensor D) dt :
  f (ev_host (op_to dt) [t]) = [] -> flat_map f (cast_events t dt) = [].
Proof.
  intros Hf. unfold cast_events. destruct (DType_eqb _ _); cbn [flat_map]; [reflexivity|].
  now rewrite Hf.
Qed.

End Projections.

(** Reading a projection off an explicit trace. *)
Ltac project :=
  cbn [app];
  repeat first
    [ rewrite flat_map_app
    | rewrite flat_map_cast_events by reflexivity
    | progress cbn [flat_map app l_kernel l_args]
    | progress unfold is_softmax_launch
    | match goal with
      | |- context [String.eqb ?a ?b] =>
          let r := eval vm_compute in (String.eqb a b) in
          change (String.eqb a b) with r
      end ].

(** The dtypes of the tensors a run went through. *)
Ltac dtype_facts :=
  repeat match goal with
  | H : _ /\ _ |- _ => destruct H
  end;
  repeat match goal with
  | H : ?r = ?rhs |- _ =>
      is_var r;
      lazymatch type of r with Tensor _ => idtac end;
      lazymatch goal with
      | _ : dtype r = _ |- _ => fail
      | _ => idtac
      end;
      let E := fresh "Edt" in
      pose proof (f_equal dtype H) as E;
      rewrite ?dtype_cast_result in E; cbn [dtype torch_empty] in E
  end.

Ltac fold_results :=
  repeat match goal with
  | H : ?r = ?rhs |- context [?rhs] => is_var r; rewrite <- H
  end.

Lemma bloom_dropout_call {D} {R : Runtime D}
    (q k v alibi : Tensor D) beta scale attention_mask drop_out head_mask
    layer_past use_cache :
  dropout_guard drop_out = true ->
  yields
    (compute_attention_for_bloom q k v alibi beta scale attention_mask
       drop_out head_mask layer_past use_cache)
    (fun _ tr =>
       exists s,
         softmax_outputs tr = [s]
         /\ dropout_calls tr = [(drop_out, false, false, [cast_result s (dtype q)])]).
Proof.
  intros Hg.
  unfold compute_attention_for_bloom. unfold dropout_guard in Hg. rewrite Hg.
  yields_walk.
  all: unfold softmax_outputs, dropout_calls; project.
  all: eexists; split; [reflexivity|].
  all: dtype_facts; fold_results.
  all: repeat match goal with
       | H : ?a = ?b |- _ => is_var a; is_var b; subst a
       end.
  all: first
    [ rewrite cast_result_same by congruence; reflexivity
    | match goal with
      | H : ?r = cast_result _ _ |- context [?r] => rewrite H
      end; congruence ].
Qed.

(** ** The precision of the softmax stage *)



(** ** The dropout step and the half-precision flow *)

Lemma bloom_skips_dropout {D} {R : Runtime D}
    (q k v alibi : Tensor D) beta scale attention_mask drop_out head_mask
    layer_past use_cache :
  dropout_guard drop_out = false ->
  dropout_calls
    (trace (compute_attention_for_bloom q k v alibi beta scale attention_mask
              drop_out head_mask layer_past use_cache)) = [].
Proof.
  intros Hg. apply flat_map_nil.
  apply spec_trace with (Q := fun _ => True).
  unfold compute_attention_for_bloom. unfold dropout_guard in Hg. rewrite Hg.
  spec_walk ltac:(first [ reflexivity | exact I ]).
Qed.

(** C5 (as amended): in the biased flow, with [0 < drop_out < 1] a call
    that returns has made exactly one [F.dropout] call, on the output of
    the softmax stage in the working dtype, with [training=False]; that
    call returns its input, so the flow returns what it returns with
    dropout disabled and leaves the same trace but for the call.  Outside
    the guard no [F.dropout] call is made and the flow is the one with the
    default [drop_out = -1].  Neither 0 nor 1 passes the guard. *)
Theorem dropout_applied_only_strictly_between_0_and_1 :
  forall (D : Type) (R : Runtime D) (q k v alibi : Tensor D) beta scale
         attention_mask drop_out head_mask layer_past use_cache,
    (dropout_guard drop_out = true ->
     forall out,
       result (compute_attention_for_bloom q k v alibi beta scale attention_mask
                 drop_out head_mask layer_past use_cache) = Ok out ->
       (exists s,
           softmax_outputs
             (trace (compute_attention_for_bloom q k v alibi beta scale
                       attention_mask drop_out head_mask layer_past use_cache))
           = [s]
           /\ dropout_calls
                (trace (compute_attention_for_bloom q k v alibi beta scale
                          attention_mask drop_out head_mask layer_past use_cache))
              = [(drop_out, false, false, [cast_result s (dtype q)])])
       /\ result (compute_attention_for_bloom q k v alibi beta scale
                    attention_mask (-1)%float head_mask layer_past use_cache)
          = Ok out
       /\ trace (compute_attention_for_bloom q k v alibi beta scale
                   attention_mask (-1)%float head_mask layer_past use_cache)
          = filter not_dropout
              (trace (compute_attention_for_bloom q k v alibi beta scale
                        attention_mask drop_out head_mask layer_past use_cache)))
    /\ (dropout_guard drop_out = false ->
          dropout_calls
            (trace (compute_attention_for_bloom q k v alibi beta scale
                      attention_mask drop_out head_mask layer_past use_cache))
          = []
          /\ compute_attention_for_bloom q k v alibi beta scale attention_mask
               drop_out head_mask layer_past use_cache
             = compute_attention_for_bloom q k v alibi beta scale attention_mask
                 (-1)%float head_mask layer_past use_cache)
    /\ dropout_guard 0 = false
    /\ dropout_guard 1 = false.
Proof.
  intros. split; [|split; [|split; reflexivity]].
  - intros Hg out H. split.
    + exact (bloom_dropout_call q k v alibi beta scale attention_mask drop_out
               head_mask layer_past use_cache Hg out H).
    + exact (bloom_dropout_changes_nothing q k v alibi beta scale attention_mask
               drop_out head_mask layer_past use_cache out Hg H).
  - intros Hg. split; [now apply bloom_skips_dropout|].
    now apply bloom_bypass_is_default.
Qed.

Lemma dropout_applied_only_strictly_between_0_and_1_witness :
  ((exists s,
       softmax_outputs
         (trace (compute_attention_for_bloom
                   (descriptor [1; 2; 3; 4] float16) (descriptor [1; 2; 4; 5] float16)
                   (descriptor [1; 2; 5; 4] float16) (descriptor [1; 2; 3; 1] float16)
                   1%float 1%float None 0.5%float None None true)) = [s]
       /\ dropout_calls
            (trace (compute_attention_for_bloom
                      (descriptor [1; 2; 3; 4] float16) (descriptor [1; 2; 4; 5] float16)
                      (descriptor [1; 2; 5; 4] float16) (descriptor [1; 2; 3; 1] float16)
                      1%float 1%float None 0.5%float None None true))
          = [(0.5%float, false, false, [cast_result s float16])])
   /\ result (compute_attention_for_bloom
                (descriptor [1; 2; 3; 4] float16) (descriptor [1; 2; 4; 5] float16)
                (descriptor [1; 2; 5; 4] float16) (descriptor [1; 2; 3; 1] float16)
                1%float 1%float None (-1)%float None None true)
      = Ok (mkTensor [1; 3; 8] [24; 8; 1] float16 tt)
   /\ trace (compute_attention_for_bloom
               (descriptor [1; 2; 3; 4] float16) (descriptor [1; 2; 4; 5] float16)
               (descriptor [1; 2; 5; 4] float16) (descriptor [1; 2; 3; 1] float16)
               1%float 1%float None (-1)%float None None true)
      = filter not_dropout
          (trace (compute_attention_for_bloom
                    (descriptor [1; 2; 3; 4] float16) (descriptor [1; 2; 4; 5] float16)
                    (descriptor [1; 2; 5; 4] float16) (descriptor [1; 2; 3; 1] float16)
                    1%float 1%float None 0.5%float None None true)))
  /\ dropout_calls
       (trace (compute_attention_for_bloom
                 (descriptor [1; 2; 3; 4] float16) (descriptor [1; 2; 4; 5] float16)
                 (descriptor [1; 2; 5; 4] float16) (descriptor [1; 2; 3; 1] float16)
                 1%float 1%float None 1%float None None true)) = [].
Proof.
  split.
  - refine (proj1 (dropout_applied_only_strictly_between_0_and_1
                     unit descriptor_runtime
                     (descriptor [1; 2; 3; 4] float16) (descriptor [1; 2; 4; 5] float16)
                     (descriptor [1; 2; 5; 4] float16) (descriptor [1; 2; 3; 1] float16)
                     1%float 1%float None 0.5%float None None true)
                  _ (mkTensor [1; 3; 8] [24; 8; 1] float16 tt) _).
    + vm_compute. reflexivity.
    + vm_compute. reflexivity.
  - refine (proj1 (proj1 (proj2 (dropout_applied_only_strictly_between_0_and_1
                     unit descriptor_runtime
                     (descriptor [1; 2; 3; 4] float16) (descriptor [1; 2; 4; 5] float16)
                     (descriptor [1; 2; 5; 4] float16) (descriptor [1; 2; 3; 1] float16)
                     1%float 1%float None 1%float None None true)) _)).
    vm_compute. reflexivity.
Defined.

(** C5 fails as stated: with a drop probability of 0.5 the guard is
    passed, yet the one [F.dropout] call of the flow is made with
    [training=False], and the flow returns, contents included, exactly
    what it returns with dropout disabled. *)
Lemma bloom_dropout_call_drops_nothing :
  dropout_guard 0.5 = true
  /\ map (fun c => (fst (fst (fst c)), snd (fst (fst c)), snd (fst c)))
         (dropout_calls
            (trace (compute_attention_for_bloom
                      (given "q" [1; 2; 3; 4] float16) (given "k" [1; 2; 4; 5] float16)
                      (given "v" [1; 2; 5; 4] float16) (given "alibi" [1; 2; 3; 1] float16)
                      1%float 1%float None 0.5%float None None true)))
     = [(0.5%float, false, false)]
  /\ exists out,
       result (compute_attention_for_bloom
                 (given "q" [1; 2; 3; 4] float16) (given "k" [1; 2; 4; 5] float16)
                 (given "v" [1; 2; 5; 4] float16) (given "alibi" [1; 2; 3; 1] float16)
                 1%float 1%float None 0.5%float None None true) = Ok out
       /\ result (compute_attention_for_bloom
                    (given "q" [1; 2; 3; 4] float16) (given "k" [1; 2; 4; 5] float16)
                    (given "v" [1; 2; 5; 4] float16) (given "alibi" [1; 2; 3; 1] float16)
                    1%float 1%float None (-1)%float None None true) = Ok out.
Proof.
  split; [vm_compute; reflexivity|]. split; [vm_compute; reflexivity|].
  eexists. split; vm_compute; reflexivity.
Qed.


